(** * xqemu-manager: the process-and-protocol supervisor of [main.py]

    A shallow embedding of the class [Xqemu] (start, stop, run_cmd, pause,
    cont, restart, screenshot, isPaused, isRunning) and of the button
    handlers of [MainWindow] that drive it, followed by the properties the
    specification states about them.

    Python objects are mutated in place and every call to the operating
    system, to [subprocess], to [time] and to the QMP library is an effect.
    The embedding threads the object [self] and a record of the effects
    performed so far through a small state-and-exception monad; what the
    outside world answers is read from an environment [Env] that the
    theorems quantify over. *)

From Stdlib Require Import Ascii String.
From Equations Require Import Equations.
From stdpp Require Import base strings gmap list pretty.

Set Default Proof Using "Type".
Open Scope string_scope.
Open Scope list_scope.

(** ** Python values that cross the boundary *)

(** Exceptions, by the class that is raised.  [check_path] and [run_cmd]
    raise plain [Exception] with a message; [subprocess.Popen] raises
    [OSError]; the QMP library raises [socket.error]; subscripting raises
    [KeyError] or [TypeError]; calling a method on [None] raises
    [AttributeError]. *)
Inductive exn :=
| Exception (msg : string)
| OSError (msg : string)
| SocketError (msg : string)
| KeyError (key : string)
| TypeError (msg : string)
| AttributeError (msg : string).

(** [str(e)] as [onRunButtonClicked] shows it in the message box. *)
Definition str_exn (e : exn) : string :=
  match e with
  | Exception m | OSError m | SocketError m | TypeError m | AttributeError m => m
  | KeyError k => "'" +:+ k +:+ "'"
  end.

(** What [json.loads] produces and [json.dumps] consumes: the QMP requests
    and responses.  Python's [None] is [JNull]; a [dict] is a finite map
    with string keys. *)
#[local] Unset Elimination Schemes.
Inductive json :=
| JNull
| JBool (b : bool)
| JNum (n : Z)
| JStr (s : string)
| JArr (items : list json)
| JObj (fields : gmap string json).
#[local] Set Elimination Schemes.

(** [v[key]] for a string key.  A dict without the key raises [KeyError];
    every other value raises [TypeError], with the message CPython 3 gives
    for the type of the operand. *)
Definition subscript (v : json) (key : string) : exn + json :=
  match v with
  | JObj fields =>
      match fields !! key with
      | Some x => inr x
      | None => inl (KeyError key)
      end
  | JNull => inl (TypeError "'NoneType' object is not subscriptable")
  | JBool _ => inl (TypeError "'bool' object is not subscriptable")
  | JNum _ => inl (TypeError "'int' object is not subscriptable")
  | JStr _ => inl (TypeError "string indices must be integers")
  | JArr _ => inl (TypeError "list indices must be integers or slices, not str")
  end.

(** [v == s] for a string literal [s]. *)
Definition eq_str (v : json) (s : string) : bool :=
  match v with
  | JStr t => bool_decide (t = s)
  | _ => false
  end.

(** [SettingsManager.settings]: the eight keys that [SettingsManager.reset]
    installs, with the value types the widgets of [SettingsWindow] bind to
    them ([text()] for the paths, [isChecked()] for the flags). *)
Record Settings := {
  xqemu_path : string;
  mcpx_path : string;
  flash_path : string;
  hdd_path : string;
  hdd_locked : bool;
  dvd_present : bool;
  dvd_path : string;
  short_anim : bool
}.

(** ** The outside world *)

(** A child process is identified by the number of the [Popen] call that
    created it. *)
Definition proc := nat.

(** A [QEMUMonitorProtocol] object: which connection attempt created it and
    whether its [connect()] went through. *)
Record qmp := { qmp_id : nat; qmp_connected : bool }.

(** One pass through the [try] block of the retry loop. *)
Inductive conn_outcome :=
| CtorRaises (e : exn)      (* QEMUMonitorProtocol(...) raised *)
| ConnectRaises (e : exn)   (* the object was built, connect() raised *)
| Connected.

(** The answers of the environment.  Path tests depend on the path; the
    [n]-th [Popen], the [n]-th connection attempt and the [n]-th [cmd_obj]
    of a run each have their own answer, so that every sequential run of the
    program against a real system is the run against some [Env]. *)
Record Env := {
  os_path_exists : string -> bool;
  os_path_isdir : string -> bool;
  subprocess_Popen : nat -> list string -> option exn;
  qmp_connect : nat -> conn_outcome;
  qmp_cmd_obj : nat -> json -> exn + json
}.

(** Effects, in the order they happen. *)
Inductive event :=
| Stdout (line : string)
| Spawn (argv : list string) (p : proc)
| SpawnFailed (argv : list string)
| Sleep (seconds : nat)
| Connect (attempt : nat) (ok : bool)
| Command (request : json)
| Terminate (p : proc)
| MessageBox (title text : string)
| WriteFile (path : string) (content : json) (ok : bool).

Record IO := {
  spawned : nat;      (* Popen calls so far *)
  attempts : nat;     (* connection attempts so far *)
  commands : nat;     (* cmd_obj calls so far *)
  log : list event
}.

Definition io0 : IO := {| spawned := 0; attempts := 0; commands := 0; log := [] |}.

Definition emit (ev : event) (io : IO) : IO :=
  {| spawned := spawned io; attempts := attempts io; commands := commands io;
     log := log io ++ [ev] |}.

Definition count_spawn (io : IO) : IO :=
  {| spawned := S (spawned io); attempts := attempts io; commands := commands io;
     log := log io |}.

Definition count_attempt (io : IO) : IO :=
  {| spawned := spawned io; attempts := S (attempts io); commands := commands io;
     log := log io |}.

Definition count_command (io : IO) : IO :=
  {| spawned := spawned io; attempts := attempts io; commands := S (commands io);
     log := log io |}.

(** ** The object and its monad *)

(** [Xqemu.__init__] sets both attributes to [None]. *)
Record Xqemu := { _p : option proc; _qmp : option qmp }.

Definition Xqemu__init__ : Xqemu := {| _p := None; _qmp := None |}.

Inductive outcome (A : Type) :=
| Returned (a : A)
| Raised (e : exn).
Arguments Returned {A} a.
Arguments Raised {A} e.

(** A body of code that runs on a mutable object of type [S]: it sees the
    object and the effects so far, and leaves both changed whether it
    returns or raises. *)
Definition M (S A : Type) : Type := S * IO -> outcome A * (S * IO).

#[export] Instance M_ret {S} : MRet (M S) := fun A a st => (Returned a, st).
#[export] Instance M_bind {S} : MBind (M S) := fun A B k m st =>
  match m st with
  | (Returned a, st') => k a st'
  | (Raised e, st') => (Raised e, st')
  end.

Definition raise {S A} (e : exn) : M S A := fun st => (Raised e, st).

(** [try: m  except Exception as e: h e] *)
Definition try_except {S A} (m : M S A) (h : exn -> M S A) : M S A := fun st =>
  match m st with
  | (Returned a, st') => (Returned a, st')
  | (Raised e, st') => h e st'
  end.

Definition effect {S} (ev : event) : M S unit := fun '(self, io) =>
  (Returned tt, (self, emit ev io)).

Definition get_self {S} : M S S := fun '(self, io) => (Returned self, (self, io)).

(** Lift a pure computation that may raise. *)
Definition lift {S A} (r : exn + A) : M S A :=
  match r with
  | inl e => raise e
  | inr a => mret a
  end.

(** Methods of [Xqemu]. *)
Abbreviation method := (M Xqemu).

Definition set_p (v : option proc) : method unit := fun '(self, io) =>
  (Returned tt, ({| _p := v; _qmp := _qmp self |}, io)).

(** ** String helpers of [start] *)

Definition dquote : string := String "034"%char EmptyString.
Definition backslash : string := String "092"%char EmptyString.

(** [' ' in s] *)
Fixpoint has_space (s : string) : bool :=
  match s with
  | EmptyString => false
  | String c rest => if Ascii.eqb c " "%char then true else has_space rest
  end.

(** [s.replace(dquote, backslash + dquote)] *)
Fixpoint escape_quotes (s : string) : string :=
  match s with
  | EmptyString => EmptyString
  | String c rest =>
      if Ascii.eqb c "034"%char
      then backslash +:+ dquote +:+ escape_quotes rest
      else String c (escape_quotes rest)
  end.

(** [sep.join(parts)] *)
Fixpoint join (sep : string) (parts : list string) : string :=
  match parts with
  | [] => ""
  | [x] => x
  | x :: rest => x +:+ sep +:+ join sep rest
  end.

(** The loop that fills [cmd_escaped]. *)
Definition cmd_escaped (cmd : list string) : list string :=
  map (fun cmd_part =>
         if has_space cmd_part
         then dquote +:+ escape_quotes cmd_part +:+ dquote
         else cmd_part) cmd.

(** ** [Xqemu.start] *)

(** The inner function [check_path]. *)
Definition check_path (env : Env) (path : string) : method unit :=
  if negb (os_path_exists env path) || os_path_isdir env path
  then raise (Exception ("File " +:+ path +:+ " could not be found!"))
  else mret tt.

(** The list literal bound to [cmd]; its parameters are the local variables
    that the [%(name)s] conversions read from [locals()]. *)
Definition build_cmd
    (xqemu_path mcpx_path short_anim_arg flash_path hdd_path hdd_lock_arg
       dvd_path_arg : string) : list string :=
  [ xqemu_path;
    "-cpu"; "pentium3";
    "-machine"; "xbox,bootrom=" +:+ mcpx_path +:+ short_anim_arg;
    "-m"; "64";
    "-bios"; flash_path;
    "-net"; "nic,model=nvnet";
    "-net"; "user";
    "-drive"; "file=" +:+ hdd_path +:+ ",index=0,media=disk" +:+ hdd_lock_arg;
    "-drive"; "index=1,media=cdrom" +:+ dvd_path_arg;
    "-qmp"; "tcp:localhost:4444,server,nowait" ].

(** [subprocess.Popen(cmd)]: the environment decides whether the spawn
    raises; a new process gets the number of the call. *)
Definition Popen (env : Env) (cmd : list string) : method proc := fun '(self, io) =>
  let n := spawned io in
  match subprocess_Popen env n cmd with
  | Some e => (Raised e, (self, count_spawn (emit (SpawnFailed cmd) io)))
  | None => (Returned n, (self, count_spawn (emit (Spawn cmd n) io)))
  end.

(** [time.sleep(seconds)] *)
Definition sleep (seconds : nat) : method unit := effect (Sleep seconds).

(** The body of the [try]:
    [self._qmp = QEMUMonitorProtocol(('localhost', 4444)); self._qmp.connect()].
    When the constructor raises, the assignment does not happen; when
    [connect()] raises, [self._qmp] already holds the new object. *)
Definition new_qmp_and_connect (env : Env) : method unit := fun '(self, io) =>
  let n := attempts io in
  match qmp_connect env n with
  | CtorRaises e =>
      (Raised e, (self, count_attempt (emit (Connect n false) io)))
  | ConnectRaises e =>
      (Raised e, ({| _p := _p self; _qmp := Some {| qmp_id := n; qmp_connected := false |} |},
                  count_attempt (emit (Connect n false) io)))
  | Connected =>
      (Returned tt, ({| _p := _p self; _qmp := Some {| qmp_id := n; qmp_connected := true |} |},
                     count_attempt (emit (Connect n true) io)))
  end.

(** The [while True] loop of [start], entered with the counter [i].  The
    counter only grows and the loop is left once it passes 4, so [6 - i]
    decreases around the loop. *)
Equations? connect_loop (env : Env) (i : nat) : method unit by wf (6 - i) lt :=
connect_loop env i :=
  effect (Stdout ("Trying to connect " +:+ pretty i)) ;;
  (if decide (0 < i) then sleep 1 else mret tt) ;;
  try_except (new_qmp_and_connect env)
    (fun e => match decide (4 < i) with
              | left _ => raise e
              | right _ => connect_loop env (S i)
              end).
Proof. lia. Qed.

Definition start (env : Env) (settings : Settings) : method unit :=
  check_path env (xqemu_path settings) ;;
  check_path env (mcpx_path settings) ;;
  check_path env (flash_path settings) ;;
  check_path env (hdd_path settings) ;;
  let short_anim_arg := if short_anim settings then ",short_animation" else "" in
  let hdd_lock_arg := if hdd_locked settings then ",locked" else "" in
  dvd_path_arg ←
    (if dvd_present settings
     then check_path env (dvd_path settings) ;;
          mret (",file=" +:+ dvd_path settings)
     else mret "") ;
  let cmd :=
    build_cmd (xqemu_path settings) (mcpx_path settings) short_anim_arg
      (flash_path settings) (hdd_path settings) hdd_lock_arg dvd_path_arg in
  effect (Stdout ("Running: " +:+ join " " (cmd_escaped cmd))) ;;
  p ← Popen env cmd ;
  set_p (Some p) ;;
  connect_loop env 0.

(** ** The other methods of [Xqemu] *)

(** [self._p.terminate()]: the signal is sent; the call is taken not to
    raise. *)
Definition terminate (p : proc) : method unit := effect (Terminate p).

Definition stop : method unit :=
  self ← get_self ;
  match _p self with
  | Some p => terminate p ;; set_p None
  | None => mret tt
  end.

(** The argument of [run_cmd]: a command name, or an object that is not
    given as a name (the callers pass a ready request). *)
Inductive cmd_arg :=
| CmdName (name : string)
| CmdObj (request : json).

(** [self._qmp.cmd_obj(cmd)]: on [None] the attribute lookup fails. *)
Definition cmd_obj (env : Env) (request : json) : method json := fun '(self, io) =>
  match _qmp self with
  | None =>
      (Raised (AttributeError "'NoneType' object has no attribute 'cmd_obj'"), (self, io))
  | Some _ =>
      let io' := count_command (emit (Command request) io) in
      match qmp_cmd_obj env (commands io) request with
      | inl e => (Raised e, (self, io'))
      | inr resp => (Returned resp, (self, io'))
      end
  end.

Definition request (name : string) (arguments : gmap string json) : json :=
  JObj {[ "execute" := JStr name; "arguments" := JObj arguments ]}.

(** [if type(cmd) is str: cmd = {...}]: every string is wrapped, whichever
    way it was given; anything else goes out as it is. *)
Definition wire_request (cmd : cmd_arg) : json :=
  match cmd with
  | CmdName name => request name ∅
  | CmdObj (JStr name) => request name ∅
  | CmdObj obj => obj
  end.

Definition run_cmd (env : Env) (cmd : cmd_arg) : method json :=
  let cmd := wire_request cmd in
  resp ← cmd_obj env cmd ;
  match resp with
  | JNull => raise (Exception "Disconnected!")
  | _ => mret resp
  end.

Definition pause (env : Env) : method json := run_cmd env (CmdName "stop").
Definition cont (env : Env) : method json := run_cmd env (CmdName "cont").
Definition restart (env : Env) : method json := run_cmd env (CmdName "system_reset").

Definition screenshot (env : Env) : method json :=
  let cmd := request "screendump" {[ "filename" := JStr "screenshot.ppm" ]} in
  run_cmd env (CmdObj cmd).

Definition isPaused (env : Env) : method bool :=
  resp ← run_cmd env (CmdName "query-status") ;
  ret ← lift (subscript resp "return") ;
  status ← lift (subscript ret "status") ;
  mret (eq_str status "paused").

Definition isRunning (self : Xqemu) : bool :=
  match _p self with
  | Some _ => true
  | None => false
  end.

(** ** [MainWindow] *)

(** The attributes the handlers read and write: the instance, the settings
    and the captions of the two buttons whose text changes. *)
Record MainWindow := {
  inst : Xqemu;
  settings : Settings;
  runButton : string;
  pauseButton : string
}.

Abbreviation handler := (M MainWindow).

(** [MainWindow.__init__], once [SettingsManager.load] has produced [s]. *)
Definition MainWindow__init__ (s : Settings) : MainWindow :=
  {| inst := Xqemu__init__; settings := s;
     runButton := "Start"; pauseButton := "Pause" |}.

(** Run a method of [self.inst]. *)
Definition on_inst {A} (m : method A) : handler A := fun '(w, io) =>
  let '(r, (x, io')) := m (inst w, io) in
  (r, ({| inst := x; settings := settings w;
          runButton := runButton w; pauseButton := pauseButton w |}, io')).

Definition runButton_setText (text : string) : handler unit := fun '(w, io) =>
  (Returned tt, ({| inst := inst w; settings := settings w;
                    runButton := text; pauseButton := pauseButton w |}, io)).

Definition pauseButton_setText (text : string) : handler unit := fun '(w, io) =>
  (Returned tt, ({| inst := inst w; settings := settings w;
                    runButton := runButton w; pauseButton := text |}, io)).

Definition onRunButtonClicked (env : Env) : handler unit :=
  w ← get_self ;
  if negb (isRunning (inst w))
  then
    try_except
      (on_inst (start env (settings w)) ;;
       runButton_setText "Stop")
      (fun e => effect (MessageBox "Error!" (str_exn e)))
  else
    on_inst stop ;;
    runButton_setText "Start".

Definition onPauseButtonClicked (env : Env) : handler unit :=
  w ← get_self ;
  if negb (isRunning (inst w)) then mret tt
  else
    paused ← on_inst (isPaused env) ;
    if paused : bool
    then on_inst (cont env) ;; pauseButton_setText "Pause"
    else on_inst (pause env) ;; pauseButton_setText "Continue".

Definition onScreenshotButtonClicked (env : Env) : handler unit :=
  w ← get_self ;
  if negb (isRunning (inst w)) then mret tt
  else on_inst (screenshot env) ;; mret tt.

Definition onRestartButtonClicked (env : Env) : handler unit :=
  w ← get_self ;
  if negb (isRunning (inst w)) then mret tt
  else on_inst (restart env) ;; mret tt.

Definition SETTINGS_FILE : string := "./settings.json".

(** [SettingsManager.settings] as the dict that [json.dumps] receives. *)
Definition settings_dict (s : Settings) : json :=
  JObj {[ "xqemu_path" := JStr (xqemu_path s);
          "mcpx_path" := JStr (mcpx_path s);
          "flash_path" := JStr (flash_path s);
          "hdd_path" := JStr (hdd_path s);
          "hdd_locked" := JBool (hdd_locked s);
          "dvd_present" := JBool (dvd_present s);
          "dvd_path" := JStr (dvd_path s);
          "short_anim" := JBool (short_anim s) ]}.

(** [SettingsManager.save]: opens [SETTINGS_FILE] for writing and writes
    [json.dumps(self.settings, indent=2)].  [error] is what [open] or
    [write] raised, if anything; the effect records the file, the value
    that was dumped and whether the write went through. *)
Definition SettingsManager_save (error : option exn) : handler unit :=
  w ← get_self ;
  match error with
  | None => effect (WriteFile SETTINGS_FILE (settings_dict (settings w)) true)
  | Some e =>
      effect (WriteFile SETTINGS_FILE (settings_dict (settings w)) false) ;;
      raise e
  end.

Definition set_settings (s : Settings) : handler unit := fun '(w, io) =>
  (Returned tt, ({| inst := inst w; settings := s;
                    runButton := runButton w; pauseButton := pauseButton w |}, io)).

(** [onSettingsClicked]: the dialog edits [self.settings] in place, [s] is
    what it holds when the dialog closes; then the settings are saved.
    [save_error] is what the save raised, if anything: it leaves the
    handler, with the edited settings kept. *)
Definition onSettingsClicked (s : Settings) (save_error : option exn) : handler unit :=
  set_settings s ;;
  SettingsManager_save save_error.

(** [onExitClicked]: [self.inst.stop()], after which [sys.exit(0)] ends the
    program. *)
Definition onExitClicked : handler unit := on_inst stop.

(** ** Reading the effects *)

Definition is_connect (ev : event) : bool :=
  match ev with Connect _ _ => true | _ => false end.
Definition is_spawn (ev : event) : bool :=
  match ev with Spawn _ _ => true | _ => false end.

(** Total time slept, in seconds. *)
Fixpoint slept (evs : list event) : nat :=
  match evs with
  | [] => 0
  | Sleep n :: rest => n + slept rest
  | _ :: rest => slept rest
  end.

Definition count (f : event -> bool) (evs : list event) : nat :=
  length (filter (fun ev => f ev = true) evs).

(** The child processes that were spawned and have not been asked to
    terminate. *)
Definition alive_step (acc : gset proc) (ev : event) : gset proc :=
  match ev with
  | Spawn _ p => acc ∪ {[p]}
  | Terminate p => acc ∖ {[p]}
  | _ => acc
  end.

Definition alive (evs : list event) : gset proc := foldl alive_step ∅ evs.

(** ** Test environments *)

(** Every path names a regular file, every spawn works, and the listener
    accepts from attempt [n] on. *)
Definition env_up_at (n : nat) : Env :=
  {| os_path_exists := fun _ => true;
     os_path_isdir := fun _ => false;
     subprocess_Popen := fun _ _ => None;
     qmp_connect := fun k =>
       if decide (n <= k) then Connected
       else ConnectRaises (SocketError ("refused " +:+ pretty k));
     qmp_cmd_obj := fun _ _ => inr (JObj {[ "return" := JObj ∅ ]}) |}.

(** The listener never accepts. *)
Definition env_down : Env :=
  {| os_path_exists := fun _ => true;
     os_path_isdir := fun _ => false;
     subprocess_Popen := fun _ _ => None;
     qmp_connect := fun k => ConnectRaises (SocketError ("refused " +:+ pretty k));
     qmp_cmd_obj := fun _ _ => inr JNull |}.

Definition default_settings : Settings :=
  {| xqemu_path := "/path/to/xqemu";
     mcpx_path := "/path/to/mcpx.bin";
     flash_path := "/path/to/flash.bin";
     hdd_path := "/path/to/hdd.img";
     hdd_locked := true;
     dvd_present := true;
     dvd_path := "/path/to/disc.iso";
     short_anim := false |}.

(** ** Vocabulary of the properties *)

(** *** Validation *)

(** The settings that hold a path. *)
Inductive field :=
| F_xqemu_path | F_mcpx_path | F_flash_path | F_hdd_path | F_dvd_path.

Definition field_name (f : field) : string :=
  match f with
  | F_xqemu_path => "xqemu_path"
  | F_mcpx_path => "mcpx_path"
  | F_flash_path => "flash_path"
  | F_hdd_path => "hdd_path"
  | F_dvd_path => "dvd_path"
  end.

Definition field_value (s : Settings) (f : field) : string :=
  match f with
  | F_xqemu_path => xqemu_path s
  | F_mcpx_path => mcpx_path s
  | F_flash_path => flash_path s
  | F_hdd_path => hdd_path s
  | F_dvd_path => dvd_path s
  end.

(** The paths [start] checks, in the order it checks them. *)
Definition active_fields (s : Settings) : list field :=
  [F_xqemu_path; F_mcpx_path; F_flash_path; F_hdd_path]
    ++ (if dvd_present s then [F_dvd_path] else []).

(** The test of [check_path]: missing, or a directory. *)
Definition invalid_path (env : Env) (path : string) : bool :=
  negb (os_path_exists env path) || os_path_isdir env path.

Fixpoint first_invalid_in (env : Env) (s : Settings) (fs : list field) : option field :=
  match fs with
  | [] => None
  | f :: rest =>
      if invalid_path env (field_value s f) then Some f
      else first_invalid_in env s rest
  end.

Definition first_invalid (env : Env) (s : Settings) : option field :=
  first_invalid_in env s (active_fields s).

(** *** The argument vector *)

(** The value of [cmd] in [start], as a function of the settings. *)
Definition launch_cmd (s : Settings) : list string :=
  build_cmd (xqemu_path s) (mcpx_path s)
    (if short_anim s then ",short_animation" else "")
    (flash_path s) (hdd_path s)
    (if hdd_locked s then ",locked" else "")
    (if dvd_present s then ",file=" +:+ dvd_path s else "").

Definition with_dvd_path (s : Settings) (path : string) : Settings :=
  {| xqemu_path := xqemu_path s; mcpx_path := mcpx_path s;
     flash_path := flash_path s; hdd_path := hdd_path s;
     hdd_locked := hdd_locked s; dvd_present := dvd_present s;
     dvd_path := path; short_anim := short_anim s |}.

(** *** The retry loop *)

(** What one connection attempt leaves in the log when the loop counter is
    [i] and [k] attempts were made before. *)
Definition attempt_events (i k : nat) (ok : bool) : list event :=
  Stdout ("Trying to connect " +:+ pretty i)
    :: (if decide (0 < i) then [Sleep 1] else []) ++ [Connect k ok].

Fixpoint failed_rounds (i k n : nat) : list event :=
  match n with
  | 0 => []
  | S n' => attempt_events i k false ++ failed_rounds (S i) (S k) n'
  end.

(** The delay that precedes each connection attempt, in order. *)
Fixpoint delays (pending : nat) (evs : list event) : list nat :=
  match evs with
  | [] => []
  | Sleep n :: rest => delays (pending + n) rest
  | Connect _ _ :: rest => pending :: delays 0 rest
  | _ :: rest => delays pending rest
  end.

Definition conn_error (o : conn_outcome) : option exn :=
  match o with
  | CtorRaises e | ConnectRaises e => Some e
  | Connected => None
  end.

(** The state in which the attempt of a round is made. *)
Definition before_attempt (i : nat) (io : IO) : IO :=
  let io1 := emit (Stdout ("Trying to connect " +:+ pretty i)) io in
  if decide (0 < i) then emit (Sleep 1) io1 else io1.

(** The number of failed attempts before the listener first accepts, among
    the next [budget] attempts. *)
Fixpoint first_connected (env : Env) (k budget : nat) : option nat :=
  match budget with
  | 0 => None
  | S b =>
      match qmp_connect env k with
      | Connected => Some 0
      | _ => S <$> first_connected env (S k) b
      end
  end.

(** *** The stages of [start] *)

(** What remains of [start] once the checks have passed. *)
Definition spawn_and_connect (env : Env) (s : Settings) : method unit := fun '(self, io) =>
  let cmd := launch_cmd s in
  let io1 := emit (Stdout ("Running: " +:+ join " " (cmd_escaped cmd))) io in
  match subprocess_Popen env (spawned io) cmd with
  | Some e => (Raised e, (self, count_spawn (emit (SpawnFailed cmd) io1)))
  | None =>
      connect_loop env 0
        ({| _p := Some (spawned io); _qmp := _qmp self |},
         count_spawn (emit (Spawn cmd (spawned io)) io1))
  end.

(** *** Protocol commands *)

(** The request [screenshot] sends. *)
Definition screendump_request : json :=
  JObj {[ "execute" := JStr "screendump";
          "arguments" := JObj {[ "filename" := JStr "screenshot.ppm" ]} ]}.

(** The [filename] argument of a request. *)
Definition filename_of (req : json) : exn + json :=
  match subscript req "arguments" with
  | inl e => inl e
  | inr args => subscript args "filename"
  end.

(** *** The window *)

(** What the user can do to the window. *)
Inductive action :=
| RunButton
| PauseButton
| ScreenshotButton
| RestartButton
| SettingsDialog (s : Settings) (save_error : option exn)
| ExitAction.

Definition handle (env : Env) (a : action) : handler unit :=
  match a with
  | RunButton => onRunButtonClicked env
  | PauseButton => onPauseButtonClicked env
  | ScreenshotButton => onScreenshotButtonClicked env
  | RestartButton => onRestartButtonClicked env
  | SettingsDialog s save_error => onSettingsClicked s save_error
  | ExitAction => onExitClicked
  end.

(** One action, against whatever the world answers at that moment. *)
Definition gui_step (st st' : MainWindow * IO) : Prop :=
  exists env a, (handle env a st).2 = st'.

(** The processes the object holds a handle of. *)
Definition owned (self : Xqemu) : gset proc :=
  match _p self with
  | Some p => {[p]}
  | None => ∅
  end.

(** *** More test environments *)

(** Only ["/missing"] is absent. *)
Definition env_missing : Env :=
  {| os_path_exists := fun path => negb (String.eqb path "/missing");
     os_path_isdir := fun _ => false;
     subprocess_Popen := fun _ _ => None;
     qmp_connect := fun _ => Connected;
     qmp_cmd_obj := fun _ _ => inr JNull |}.

Definition settings_missing (f : field) : Settings :=
  {| xqemu_path := match f with F_xqemu_path => "/missing" | _ => "/path/to/xqemu" end;
     mcpx_path := match f with F_mcpx_path => "/missing" | _ => "/path/to/mcpx.bin" end;
     flash_path := "/path/to/flash.bin";
     hdd_path := "/path/to/hdd.img";
     hdd_locked := true;
     dvd_present := true;
     dvd_path := "/path/to/disc.iso";
     short_anim := false |}.

(** The emulator reports [status] to the first request and acknowledges
    every later one. *)
Definition env_status (status : string) : Env :=
  {| os_path_exists := fun _ => true;
     os_path_isdir := fun _ => false;
     subprocess_Popen := fun _ _ => None;
     qmp_connect := fun _ => Connected;
     qmp_cmd_obj := fun n _ =>
       match n with
       | 0 => inr (JObj {[ "return" := JObj {[ "status" := JStr status ]} ]})
       | _ => inr (JObj {[ "return" := JObj ∅ ]})
       end |}.

Definition started_window : MainWindow :=
  {| inst := {| _p := Some 0; _qmp := Some {| qmp_id := 0; qmp_connected := true |} |};
     settings := default_settings;
     runButton := "Stop"; pauseButton := "Pause" |}.

(** *** Further vocabulary *)

(** The effects [start] may have: printing, spawning, sleeping,
    connecting. *)
Definition start_event (ev : event) : bool :=
  match ev with
  | Stdout _ | Spawn _ _ | SpawnFailed _ | Sleep _ | Connect _ _ => true
  | Command _ | Terminate _ | MessageBox _ _ | WriteFile _ _ _ => false
  end.

Definition is_popen (ev : event) : bool :=
  match ev with Spawn _ _ | SpawnFailed _ => true | _ => false end.

(** The number of double quotes in a string. *)
Fixpoint count_quotes (s : string) : nat :=
  match s with
  | EmptyString => 0
  | String c rest => (if Ascii.eqb c "034"%char then 1 else 0) + count_quotes rest
  end.

(** Every double quote stands right after a backslash; [after_backslash]
    tells whether the character before the string was one. *)
Fixpoint quotes_escaped (after_backslash : bool) (s : string) : bool :=
  match s with
  | EmptyString => true
  | String c rest =>
      if Ascii.eqb c "034"%char
      then after_backslash && quotes_escaped false rest
      else quotes_escaped (Ascii.eqb c "092"%char) rest
  end.

(** The paths that end up in the argument vector. *)
Definition used_paths (s : Settings) : list string :=
  map (field_value s) (active_fields s).

(** One action other than the exit, after which the program goes on. *)
Definition gui_step_on (st st' : MainWindow * IO) : Prop :=
  exists env a, a <> ExitAction /\ (handle env a st).2 = st'.

(** What [isPaused] makes of the response [resp] that [cmd_obj] returned:
    the test of [run_cmd], then the two subscripts and the comparison. *)
Definition paused_of (resp : json) : outcome bool :=
  match resp with
  | JNull => Raised (Exception "Disconnected!")
  | _ =>
      match subscript resp "return" with
      | inl e => Raised e
      | inr ret =>
          match subscript ret "status" with
          | inl e => Raised e
          | inr status => Returned (eq_str status "paused")
          end
      end
  end.

(** Settings without a disc. *)
Definition settings_no_disc : Settings :=
  {| xqemu_path := "/path/to/xqemu";
     mcpx_path := "/path/to/mcpx.bin";
     flash_path := "/path/to/flash.bin";
     hdd_path := "/path/to/hdd.img";
     hdd_locked := true;
     dvd_present := false;
     dvd_path := "/path/to/disc.iso";
     short_anim := false |}.

(** *** The pause toggle *)

(** The wire object of a command without arguments, spelled out:
    [{"execute": name, "arguments": {}}]. *)
Definition command_object (name : string) : json :=
  JObj {[ "execute" := JStr name; "arguments" := JObj ∅ ]}.

(** The answer to the status query made as request number [n] says that the
    emulation is paused, or that it is not: an object whose ['return'] is an
    object whose ['status'] is, or is not, the string ['paused']. *)
Definition reports_paused (env : Env) (n : nat) (paused : bool) : Prop :=
  exists f g v,
    qmp_cmd_obj env n (command_object "query-status") = inr (JObj f) /\
    f !! "return" = Some (JObj g) /\
    g !! "status" = Some v /\
    (v = JStr "paused" <-> paused = true).

(** The name under ["execute"] of a request. *)
Definition command_name (req : json) : option string :=
  match req with
  | JObj fields =>
      match fields !! "execute" with
      | Some (JStr name) => Some name
      | _ => None
      end
  | _ => None
  end.

(** What the requests mean to the emulator: [stop] pauses the emulation,
    [cont] resumes it, and no other request of this program changes that. *)
Definition emulator_step (paused : bool) (ev : event) : bool :=
  match ev with
  | Command req =>
      match command_name req with
      | Some name =>
          if String.eqb name "stop" then true
          else if String.eqb name "cont" then false
          else paused
      | None => paused
      end
  | _ => paused
  end.

(** Whether the emulation is paused after the requests among [evs], when
    it was [paused] before them. *)
Definition emulator_paused (paused : bool) (evs : list event) : bool :=
  foldl emulator_step paused evs.

(** The control connection is reset: every [cmd_obj] raises. *)
Definition env_reset : Env :=
  {| os_path_exists := fun _ => true;
     os_path_isdir := fun _ => false;
     subprocess_Popen := fun _ _ => None;
     qmp_connect := fun _ => Connected;
     qmp_cmd_obj := fun _ _ => inl (SocketError "Connection reset by peer") |}.

(** * Properties *)

(** ** The retry loop *)

(** One trip around the loop, written on the state. *)
Lemma connect_loop_round env i self io :
  connect_loop env i (self, io) =
  match new_qmp_and_connect env (self, before_attempt i io) with
  | (Returned a, st) => (Returned a, st)
  | (Raised e, st) =>
      if decide (4 < i) then (Raised e, st) else connect_loop env (S i) st
  end.
Proof.
  rewrite connect_loop_equation_1.
  unfold before_attempt, mbind, M_bind, effect, sleep, try_except, mret, M_ret, raise.
  cbn -[connect_loop new_qmp_and_connect].
  destruct (decide (0 < i)); cbn -[connect_loop new_qmp_and_connect];
    match goal with
    | |- context [new_qmp_and_connect env ?s] =>
        destruct (new_qmp_and_connect env s) as [[a|e] st]
    end;
    destruct (decide (4 < i)); reflexivity.
Qed.

Lemma before_attempt_fields i io :
  spawned (before_attempt i io) = spawned io /\
  attempts (before_attempt i io) = attempts io /\
  commands (before_attempt i io) = commands io /\
  log (before_attempt i io) ++ [Connect (attempts io) false]
    = log io ++ attempt_events i (attempts io) false /\
  log (before_attempt i io) ++ [Connect (attempts io) true]
    = log io ++ attempt_events i (attempts io) true.
Proof.
  unfold before_attempt, attempt_events.
  destruct (decide (0 < i)); cbn; rewrite <- ?app_assoc; auto.
Qed.

Lemma new_qmp_and_connect_eq env self io :
  new_qmp_and_connect env (self, io) =
  let n := attempts io in
  let io' := fun ok => count_attempt (emit (Connect n ok) io) in
  match qmp_connect env n with
  | CtorRaises e => (Raised e, (self, io' false))
  | ConnectRaises e =>
      (Raised e, ({| _p := _p self;
                     _qmp := Some {| qmp_id := n; qmp_connected := false |} |}, io' false))
  | Connected =>
      (Returned tt, ({| _p := _p self;
                        _qmp := Some {| qmp_id := n; qmp_connected := true |} |}, io' true))
  end.
Proof. reflexivity. Qed.

Lemma connect_loop_succeeds env n : forall i self io,
  i + n <= 5 ->
  (forall j, j < n -> qmp_connect env (attempts io + j) <> Connected) ->
  qmp_connect env (attempts io + n) = Connected ->
  exists self' io',
    connect_loop env i (self, io) = (Returned tt, (self', io')) /\
    _p self' = _p self /\
    _qmp self' = Some {| qmp_id := attempts io + n; qmp_connected := true |} /\
    spawned io' = spawned io /\ commands io' = commands io /\
    attempts io' = attempts io + S n /\
    log io' = log io ++ failed_rounds i (attempts io) n
                     ++ attempt_events (i + n) (attempts io + n) true.
Proof.
  induction n as [|n IH]; intros i self io Hi Hfail Hok.
  - rewrite Nat.add_0_r in *. rewrite connect_loop_round.
    destruct (before_attempt_fields i io) as (Hs & Ha & Hc & _ & Hl).
    rewrite new_qmp_and_connect_eq. cbv zeta. rewrite Ha, Hok.
    eexists _, _. split; [reflexivity|]. cbn.
    repeat split; auto; [lia|]. rewrite Nat.add_0_r. exact Hl.
  - rewrite connect_loop_round.
    destruct (before_attempt_fields i io) as (Hs & Ha & Hc & Hl & _).
    rewrite new_qmp_and_connect_eq. cbv zeta. rewrite Ha.
    pose proof (Hfail 0 ltac:(lia)) as H0. rewrite Nat.add_0_r in H0.
    set (io1 := count_attempt (emit (Connect (attempts io) false) (before_attempt i io))).
    assert (Hio1 : spawned io1 = spawned io /\ attempts io1 = S (attempts io) /\
                   commands io1 = commands io /\
                   log io1 = log io ++ attempt_events i (attempts io) false)
      by (subst io1; cbn; rewrite Ha; auto).
    clearbody io1. destruct Hio1 as (Hs1 & Ha1 & Hc1 & Hl1).
    assert (Hnext : forall self1, _p self1 = _p self ->
      exists self' io',
        connect_loop env (S i) (self1, io1) = (Returned tt, (self', io')) /\
        _p self' = _p self /\
        _qmp self' = Some {| qmp_id := attempts io + S n; qmp_connected := true |} /\
        spawned io' = spawned io /\ commands io' = commands io /\
        attempts io' = attempts io + S (S n) /\
        log io' = log io ++ failed_rounds i (attempts io) (S n)
                         ++ attempt_events (i + S n) (attempts io + S n) true).
    { intros self1 Hp1.
      destruct (IH (S i) self1 io1) as (self' & io' & Hrun & Hp & Hq & Hs' & Hc' & Ha' & Hl').
      - lia.
      - rewrite Ha1. intros j Hj.
        replace (S (attempts io) + j) with (attempts io + S j) by lia.
        apply Hfail. lia.
      - rewrite Ha1. replace (S (attempts io) + n) with (attempts io + S n) by lia.
        exact Hok.
      - rewrite Hs1, Ha1, Hc1, Hl1 in *.
        exists self', io'. rewrite Hrun. repeat split; try congruence; try lia.
        + rewrite Hq. do 2 f_equal. lia.
        + rewrite Hl'. cbn [failed_rounds]. rewrite <- !app_assoc.
          replace (S i + n) with (i + S n) by lia.
          replace (S (attempts io) + n) with (attempts io + S n) by lia.
          reflexivity. }
    destruct (qmp_connect env (attempts io)) as [e|e|] eqn:E; [| |congruence];
      (destruct (decide (4 < i)); [lia|]); apply Hnext; reflexivity.
Qed.

Lemma connect_loop_fails env n : forall i self io,
  i + n = 5 ->
  (forall j, j <= n -> qmp_connect env (attempts io + j) <> Connected) ->
  exists e self' io',
    connect_loop env i (self, io) = (Raised e, (self', io')) /\
    conn_error (qmp_connect env (attempts io + n)) = Some e /\
    _p self' = _p self /\
    spawned io' = spawned io /\ commands io' = commands io /\
    attempts io' = attempts io + S n /\
    log io' = log io ++ failed_rounds i (attempts io) (S n).
Proof.
  induction n as [|n IH]; intros i self io Hi Hfail;
    rewrite connect_loop_round;
    destruct (before_attempt_fields i io) as (Hs & Ha & Hc & Hl & _);
    rewrite new_qmp_and_connect_eq; cbv zeta; rewrite Ha;
    pose proof (Hfail 0 ltac:(lia)) as H0; rewrite Nat.add_0_r in *.
  - destruct (qmp_connect env (attempts io)) as [e|e|] eqn:E; [| |congruence];
      (destruct (decide (4 < i)); [|lia]);
      eexists e, _, _; (split; [reflexivity|]); cbn;
      rewrite app_nil_r; repeat split; auto; lia.
  - set (io1 := count_attempt (emit (Connect (attempts io) false) (before_attempt i io))).
    assert (Hio1 : spawned io1 = spawned io /\ attempts io1 = S (attempts io) /\
                   commands io1 = commands io /\
                   log io1 = log io ++ attempt_events i (attempts io) false)
      by (subst io1; cbn; rewrite Ha; auto).
    clearbody io1. destruct Hio1 as (Hs1 & Ha1 & Hc1 & Hl1).
    assert (Hnext : forall self1, _p self1 = _p self ->
      exists e self' io',
        connect_loop env (S i) (self1, io1) = (Raised e, (self', io')) /\
        conn_error (qmp_connect env (attempts io + S n)) = Some e /\
        _p self' = _p self /\
        spawned io' = spawned io /\ commands io' = commands io /\
        attempts io' = attempts io + S (S n) /\
        log io' = log io ++ failed_rounds i (attempts io) (S (S n))).
    { intros self1 Hp1.
      destruct (IH (S i) self1 io1) as (e & self' & io' & Hrun & He & Hp & Hs' & Hc' & Ha' & Hl').
      - lia.
      - rewrite Ha1. intros j Hj.
        replace (S (attempts io) + j) with (attempts io + S j) by lia.
        apply Hfail. lia.
      - rewrite Hs1, Ha1, Hc1, Hl1 in *.
        replace (S (attempts io) + n) with (attempts io + S n) in He by lia.
        exists e, self', io'. rewrite Hrun. repeat split; try congruence; try lia.
        rewrite Hl'. rewrite <- app_assoc. reflexivity. }
    destruct (qmp_connect env (attempts io)) as [e|e|] eqn:E; [| |congruence];
      (destruct (decide (4 < i)); [lia|]); apply Hnext; reflexivity.
Qed.

(** From the second round on every attempt is preceded by one second. *)
Lemma delays_attempt_events pending i k ok rest :
  delays pending (attempt_events i k ok ++ rest)
  = (pending + (if decide (0 < i) then 1 else 0)) :: delays 0 rest.
Proof.
  unfold attempt_events. destruct (decide (0 < i)); cbn; [|rewrite Nat.add_0_r];
    reflexivity.
Qed.

Lemma delays_later_rounds n : forall i k rest,
  delays 0 (failed_rounds (S i) k n ++ rest) = replicate n 1 ++ delays 0 rest.
Proof.
  induction n as [|n IH]; intros i k rest; [reflexivity|].
  cbn [failed_rounds]. rewrite <- app_assoc, delays_attempt_events, IH.
  destruct (decide (0 < S i)); [reflexivity|lia].
Qed.

Lemma delays_successful_run n k :
  delays 0 (failed_rounds 0 k n ++ attempt_events (0 + n) (k + n) true)
  = 0 :: replicate n 1.
Proof.
  destruct n as [|n].
  - cbn [failed_rounds app]. rewrite <- (app_nil_r (attempt_events _ _ _)).
    rewrite delays_attempt_events. reflexivity.
  - cbn [failed_rounds]. rewrite <- app_assoc, delays_attempt_events.
    rewrite delays_later_rounds.
    rewrite <- (app_nil_r (attempt_events _ _ _)), delays_attempt_events.
    cbn [delays]. rewrite replicate_S_end. cbn. reflexivity.
Qed.

Lemma delays_failed_run n k :
  delays 0 (failed_rounds 0 k (S n)) = 0 :: replicate n 1.
Proof.
  cbn [failed_rounds]. rewrite delays_attempt_events.
  rewrite <- (app_nil_r (failed_rounds _ _ _)), delays_later_rounds.
  cbn. rewrite app_nil_r. reflexivity.
Qed.

Lemma first_connected_Some env budget : forall k n,
  first_connected env k budget = Some n ->
  n < budget /\
  (forall j, j < n -> qmp_connect env (k + j) <> Connected) /\
  qmp_connect env (k + n) = Connected.
Proof.
  induction budget as [|b IH]; intros k n H; [discriminate|].
  cbn in H. destruct (qmp_connect env k) eqn:E.
  3: { injection H as <-. rewrite Nat.add_0_r. repeat split; auto; lia. }
  all: destruct (first_connected env (S k) b) as [m|] eqn:F; [|discriminate];
    injection H as <-; destruct (IH _ _ F) as (Hlt & Hfail & Hok);
    repeat split; [lia| |replace (k + S m) with (S k + m) by lia; exact Hok];
    intros [|j] Hj; [rewrite Nat.add_0_r; congruence|];
    replace (k + S j) with (S k + j) by lia; apply Hfail; lia.
Qed.

Lemma first_connected_None env budget : forall k,
  first_connected env k budget = None ->
  forall j, j < budget -> qmp_connect env (k + j) <> Connected.
Proof.
  induction budget as [|b IH]; intros k H j Hj; [lia|].
  cbn in H. destruct (qmp_connect env k) eqn:E; [| |discriminate];
    (destruct (first_connected env (S k) b) eqn:F; [discriminate|]);
    (destruct j as [|j];
     [rewrite Nat.add_0_r; congruence
     |replace (k + S j) with (S k + j) by lia; apply (IH _ F); lia]).
Qed.

(** C2 (as the code has it).  The retry loop of [start] sleeps before no
    first attempt and one second before every later one.  When the listener
    first accepts on attempt number [n + 1] of the six the loop can make, the
    loop returns after [n + 1] attempts and [n] delays; when it accepts on
    none of the six, the loop raises the error of the sixth attempt, after
    six attempts and five delays. *)
Theorem connect_loop_schedule env self io :
  exists self' io' evs,
    log io' = log io ++ evs /\
    _p self' = _p self /\
    match first_connected env (attempts io) 6 with
    | Some n =>
        connect_loop env 0 (self, io) = (Returned tt, (self', io')) /\
        _qmp self' = Some {| qmp_id := attempts io + n; qmp_connected := true |} /\
        delays 0 evs = 0 :: replicate n 1
    | None =>
        exists e,
          connect_loop env 0 (self, io) = (Raised e, (self', io')) /\
          conn_error (qmp_connect env (attempts io + 5)) = Some e /\
          delays 0 evs = 0 :: replicate 5 1
    end.
Proof.
  destruct (first_connected env (attempts io) 6) as [n|] eqn:F.
  - destruct (first_connected_Some _ _ _ _ F) as (Hn & Hfail & Hok).
    destruct (connect_loop_succeeds env n 0 self io ltac:(lia) Hfail Hok)
      as (self' & io' & Hrun & Hp & Hq & _ & _ & _ & Hl).
    exists self', io'. eexists. split; [exact Hl|].
    split; [exact Hp|]. split; [exact Hrun|]. split; [exact Hq|].
    apply delays_successful_run.
  - pose proof (first_connected_None _ _ _ F) as Hfail.
    destruct (connect_loop_fails env 5 0 self io eq_refl) as
      (e & self' & io' & Hrun & He & Hp & _ & _ & _ & Hl).
    { intros j Hj. apply Hfail. lia. }
    exists self', io'. eexists. split; [exact Hl|]. split; [exact Hp|].
    exists e. split; [exact Hrun|]. split; [exact He|]. apply delays_failed_run.
Qed.

(** C2, counterexample.  Against a listener that never accepts the loop
    gives up after six attempts, not five: the test [i > 4] first holds on
    the round whose counter is 5. *)
Lemma connect_loop_sixth_attempt :
  (forall k, qmp_connect env_down k <> Connected) /\
  exists self' io',
    connect_loop env_down 0 (Xqemu__init__, io0)
      = (Raised (SocketError "refused 5"), (self', io')) /\
    count is_connect (log io') = 6 /\
    count is_connect (log io') <> 5 /\
    slept (log io') = 5.
Proof.
  split; [intros k; discriminate|].
  eexists _, _. split; [vm_compute; reflexivity|].
  vm_compute. repeat split. discriminate.
Qed.

(** ** [start], stage by stage *)

Lemma check_path_eq env path (st : Xqemu * IO) :
  check_path env path st =
  if invalid_path env path
  then (Raised (Exception ("File " +:+ path +:+ " could not be found!")), st)
  else (Returned tt, st).
Proof. unfold check_path, invalid_path. destruct (_ || _); reflexivity. Qed.

Lemma start_stages env s self io :
  start env s (self, io) =
  match first_invalid env s with
  | Some f =>
      (Raised (Exception ("File " +:+ field_value s f +:+ " could not be found!")),
       (self, io))
  | None => spawn_and_connect env s (self, io)
  end.
Proof.
  unfold start, first_invalid, active_fields, spawn_and_connect, launch_cmd.
  unfold mbind, M_bind. rewrite !check_path_eq. cbn [app first_invalid_in field_value].
  destruct (invalid_path env (xqemu_path s)); [reflexivity|].
  rewrite check_path_eq.
  destruct (invalid_path env (mcpx_path s)); [reflexivity|].
  rewrite check_path_eq.
  destruct (invalid_path env (flash_path s)); [reflexivity|].
  rewrite check_path_eq.
  destruct (invalid_path env (hdd_path s)); [reflexivity|].
  destruct (dvd_present s); cbn [app first_invalid_in field_value].
  - rewrite check_path_eq.
    destruct (invalid_path env (dvd_path s)); [reflexivity|].
    unfold mret, M_ret, effect, Popen, set_p. cbn -[connect_loop build_cmd join].
    destruct (subprocess_Popen env (spawned io) _); reflexivity.
  - unfold mret, M_ret, effect, Popen, set_p. cbn -[connect_loop build_cmd join].
    destruct (subprocess_Popen env (spawned io) _); reflexivity.
Qed.

(** The rounds of the retry loop neither spawn nor terminate anything. *)
Lemma alive_step_attempt_events acc i k ok :
  foldl alive_step acc (attempt_events i k ok) = acc.
Proof. unfold attempt_events. destruct (decide (0 < i)); reflexivity. Qed.

Lemma alive_step_failed_rounds n : forall acc i k,
  foldl alive_step acc (failed_rounds i k n) = acc.
Proof.
  induction n as [|n IH]; intros acc i k; [reflexivity|].
  cbn [failed_rounds]. rewrite foldl_app, alive_step_attempt_events. apply IH.
Qed.

(** The two ways out of the loop when it is entered with a fresh counter. *)
Lemma connect_loop_cases env self io :
  (exists n self' io',
     first_connected env (attempts io) 6 = Some n /\
     connect_loop env 0 (self, io) = (Returned tt, (self', io')) /\
     _p self' = _p self /\
     _qmp self' = Some {| qmp_id := attempts io + n; qmp_connected := true |} /\
     spawned io' = spawned io /\ commands io' = commands io /\
     log io' = log io ++ failed_rounds 0 (attempts io) n
                      ++ attempt_events (0 + n) (attempts io + n) true) \/
  (exists e self' io',
     first_connected env (attempts io) 6 = None /\
     connect_loop env 0 (self, io) = (Raised e, (self', io')) /\
     conn_error (qmp_connect env (attempts io + 5)) = Some e /\
     _p self' = _p self /\
     spawned io' = spawned io /\ commands io' = commands io /\
     log io' = log io ++ failed_rounds 0 (attempts io) 6).
Proof.
  destruct (first_connected env (attempts io) 6) as [n|] eqn:F.
  - left. destruct (first_connected_Some _ _ _ _ F) as (Hn & Hfail & Hok).
    destruct (connect_loop_succeeds env n 0 self io ltac:(lia) Hfail Hok)
      as (self' & io' & Hrun & Hp & Hq & Hs & Hc & _ & Hl).
    exists n, self', io'. auto 10.
  - right. pose proof (first_connected_None _ _ _ F) as Hfail.
    destruct (connect_loop_fails env 5 0 self io eq_refl) as
      (e & self' & io' & Hrun & He & Hp & Hs & Hc & _ & Hl).
    { intros j Hj. apply Hfail. lia. }
    exists e, self', io'. auto 10.
Qed.

(** ** Failure of [start] *)

(** C1 (as the code has it).  A [start] that raises did so at one of three
    stages.  At validation nothing has happened at all.  At the spawn no
    process exists and the object is unchanged.  At the connection stage
    (none of the six attempts was accepted) nothing is torn down: [self._p]
    keeps the handle of the process just spawned, [isRunning] is true, and
    that process has been added to the live ones without being asked to
    terminate. *)
Theorem start_failure_stages env s self io e self' io' :
  start env s (self, io) = (Raised e, (self', io')) ->
  (exists f, first_invalid env s = Some f /\ self' = self /\ io' = io) \/
  (first_invalid env s = None /\
   subprocess_Popen env (spawned io) (launch_cmd s) = Some e /\
   self' = self /\ alive (log io') = alive (log io)) \/
  (first_invalid env s = None /\
   subprocess_Popen env (spawned io) (launch_cmd s) = None /\
   first_connected env (attempts io) 6 = None /\
   _p self' = Some (spawned io) /\ isRunning self' = true /\
   alive (log io') = alive (log io) ∪ {[spawned io]}).
Proof.
  rewrite start_stages. destruct (first_invalid env s) as [f|] eqn:V.
  - intros [= <- <- <-]. left. eauto.
  - intros H. right. unfold spawn_and_connect in H.
    destruct (subprocess_Popen env (spawned io) (launch_cmd s)) as [e0|] eqn:P.
    + left. injection H as <- <- <-. repeat split; auto.
      cbn. unfold alive. rewrite !foldl_app. reflexivity.
    + right.
      match type of H with
      | connect_loop env 0 (?x, ?o) = _ =>
          destruct (connect_loop_cases env x o)
            as [(n & x' & o' & _ & Hrun & _)
               |(e1 & x' & o' & F & Hrun & _ & Hp & _ & _ & Hl)]
      end; rewrite Hrun in H; [discriminate|].
      injection H as <- <- <-. cbn -[failed_rounds] in Hp, Hl, F.
      repeat split; auto.
      * unfold isRunning. rewrite Hp. reflexivity.
      * rewrite Hl. unfold alive.
        rewrite foldl_app, alive_step_failed_rounds, !foldl_app. reflexivity.
Qed.

(** C1, counterexample.  Every path is a file and the spawn works, but the
    listener never accepts: [start] raises and the supervisor is left
    holding the process, which nobody asked to terminate. *)
Lemma start_connect_failure_keeps_process :
  exists e self' io',
    start env_down default_settings (Xqemu__init__, io0) = (Raised e, (self', io')) /\
    isRunning Xqemu__init__ = false /\
    isRunning self' = true /\
    _p self' = Some 0 /\
    elements (alive (log io')) = [0].
Proof.
  eexists _, _, _. split; [vm_compute; reflexivity|].
  vm_compute. auto.
Qed.

Lemma start_failure_stages_witness :
  exists e self' io',
    start env_down default_settings (Xqemu__init__, io0) = (Raised e, (self', io')) /\
    _p self' = Some 0 /\ isRunning self' = true.
Proof.
  eexists _, _, _.
  match goal with
  | |- ?A /\ _ => assert (E : A) by (vm_compute; reflexivity)
  end.
  split; [exact E|].
  destruct (start_failure_stages _ _ _ _ _ _ _ E)
    as [(f & V & _)|[(_ & P & _)|(_ & _ & _ & Hp & Hr & _)]];
    [vm_compute in V; discriminate V|discriminate P|].
  split; [exact Hp|exact Hr].
Defined.

(** ** Validation *)

Lemma first_invalid_in_Some env s fs : forall f,
  first_invalid_in env s fs = Some f ->
  invalid_path env (field_value s f) = true /\
  exists pre post,
    fs = pre ++ f :: post /\
    forall g, In g pre -> invalid_path env (field_value s g) = false.
Proof.
  induction fs as [|g fs IH]; intros f H; [discriminate|].
  cbn in H. destruct (invalid_path env (field_value s g)) eqn:E.
  - injection H as <-. split; [exact E|]. exists [], fs. split; [reflexivity|].
    intros g' [].
  - destruct (IH f H) as (Hf & pre & post & -> & Hpre).
    split; [exact Hf|]. exists (g :: pre), post. split; [reflexivity|].
    intros g' [<-|Hin]; auto.
Qed.

Lemma first_invalid_in_None env s fs :
  first_invalid_in env s fs = None ->
  forall f, In f fs -> invalid_path env (field_value s f) = false.
Proof.
  induction fs as [|g fs IH]; intros H f Hin; [destruct Hin|].
  cbn in H. destruct (invalid_path env (field_value s g)) eqn:E; [discriminate|].
  destruct Hin as [<-|Hin]; auto.
Qed.

Lemma invalid_path_false env path :
  invalid_path env path = false ->
  os_path_exists env path = true /\ os_path_isdir env path = false.
Proof.
  unfold invalid_path. destruct (os_path_exists env path), (os_path_isdir env path);
    cbn; intros; auto; discriminate.
Qed.

(** C4 (as the code has it).  [start] tests the active paths in the order
    xqemu, boot ROM, flash, hard disk and, when a disc is present, disc.  At
    the first one that is missing or a directory it raises
    [Exception('File <path> could not be found!')], which carries the path
    and nothing else, and has changed neither the object nor the world.  When
    every active path exists and is no directory, the checks pass without
    any effect and [start] goes on to build the command and spawn. *)
Theorem start_validation env s self io :
  match first_invalid env s with
  | Some f =>
      (exists pre post,
         active_fields s = pre ++ f :: post /\
         forall g, In g pre -> invalid_path env (field_value s g) = false) /\
      invalid_path env (field_value s f) = true /\
      start env s (self, io) =
        (Raised (Exception ("File " +:+ field_value s f +:+ " could not be found!")),
         (self, io))
  | None =>
      (forall f, In f (active_fields s) ->
         os_path_exists env (field_value s f) = true /\
         os_path_isdir env (field_value s f) = false) /\
      start env s (self, io) = spawn_and_connect env s (self, io)
  end.
Proof.
  rewrite start_stages. unfold first_invalid.
  destruct (first_invalid_in env s (active_fields s)) as [f|] eqn:V.
  - destruct (first_invalid_in_Some _ _ _ _ V) as (Hf & Hpre). auto.
  - split; [|reflexivity]. intros f Hin. apply invalid_path_false.
    eapply first_invalid_in_None; eauto.
Qed.

(** C4, counterexample.  The exception does not tell which setting was
    wrong: the same missing path under [xqemu_path] and under [mcpx_path]
    raises the very same exception. *)
Lemma check_path_error_omits_field :
  let s1 := settings_missing F_xqemu_path in
  let s2 := settings_missing F_mcpx_path in
  let st := (Xqemu__init__, io0) in
  first_invalid env_missing s1 = Some F_xqemu_path /\
  first_invalid env_missing s2 = Some F_mcpx_path /\
  field_name F_xqemu_path <> field_name F_mcpx_path /\
  start env_missing s1 st = (Raised (Exception "File /missing could not be found!"), st) /\
  start env_missing s2 st = (Raised (Exception "File /missing could not be found!"), st).
Proof. vm_compute. repeat split. discriminate. Qed.

(** ** The argument vector *)

Lemma spawn_and_connect_log env s self io :
  exists r self' io' ev rest,
    spawn_and_connect env s (self, io) = (r, (self', io')) /\
    log io' = log io
                ++ Stdout ("Running: " +:+ join " " (cmd_escaped (launch_cmd s)))
                :: ev :: rest /\
    (ev = Spawn (launch_cmd s) (spawned io) \/ ev = SpawnFailed (launch_cmd s)).
Proof.
  unfold spawn_and_connect.
  destruct (subprocess_Popen env (spawned io) (launch_cmd s)) as [e|].
  - eexists _, _, _, _, []. split; [reflexivity|]. cbn.
    rewrite <- app_assoc. auto.
  - match goal with
    | |- context [connect_loop env 0 (?x, ?o)] =>
        destruct (connect_loop_cases env x o)
          as [(n & x' & o' & _ & Hrun & _ & _ & _ & _ & Hl)
             |(e1 & x' & o' & _ & Hrun & _ & _ & _ & _ & Hl)]
    end; rewrite Hrun; eexists _, _, _, _, _; (split; [reflexivity|]);
      rewrite Hl; cbn [log emit count_spawn]; rewrite <- !app_assoc; cbn [app]; auto.
Qed.

(** C7.  Once the checks have passed, the vector handed to [Popen] is
    [launch_cmd]: nineteen arguments whose last [-drive] value is
    [index=1,media=cdrom] alone when no disc is present and
    [index=1,media=cdrom,file=<dvd_path>] when one is; without a disc the
    whole vector is the same whatever [dvd_path] holds. *)
Theorem start_argv_disc env s self io :
  first_invalid env s = None ->
  (exists r self' io' ev rest,
     start env s (self, io) = (r, (self', io')) /\
     log io' = log io
                 ++ Stdout ("Running: " +:+ join " " (cmd_escaped (launch_cmd s)))
                 :: ev :: rest /\
     (ev = Spawn (launch_cmd s) (spawned io) \/ ev = SpawnFailed (launch_cmd s))) /\
  length (launch_cmd s) = 19 /\
  launch_cmd s !! 15 = Some "-drive" /\
  launch_cmd s !! 16 =
    Some (if dvd_present s
          then "index=1,media=cdrom,file=" +:+ dvd_path s
          else "index=1,media=cdrom") /\
  (dvd_present s = false ->
   forall path, launch_cmd (with_dvd_path s path) = launch_cmd s).
Proof.
  intros V. split.
  - rewrite start_stages, V. apply spawn_and_connect_log.
  - unfold launch_cmd, build_cmd. cbn [length lookup list_lookup].
    repeat split.
    + destruct (dvd_present s); reflexivity.
    + cbn. intros -> path. reflexivity.
Qed.

Lemma start_argv_disc_witness :
  first_invalid (env_up_at 0) default_settings = None /\
  launch_cmd default_settings !! 16 = Some "index=1,media=cdrom,file=/path/to/disc.iso".
Proof.
  split; [reflexivity|].
  exact (proj1 (proj2 (proj2 (proj2
           (start_argv_disc (env_up_at 0) default_settings Xqemu__init__ io0 eq_refl))))).
Defined.

(** ** [stop] *)

(** C3 (as the code has it).  [stop] on an object that holds a process asks
    that process to terminate and sets [self._p] to [None]; it does nothing
    else: nothing is sent to or closed on the control connection and
    [self._qmp] keeps the object it held.  On an object without a process,
    and so also the second time in a row, it does nothing and returns. *)
Theorem stop_effects self io :
  stop (self, io) =
    (Returned tt,
     ({| _p := None; _qmp := _qmp self |},
      match _p self with
      | Some p => emit (Terminate p) io
      | None => io
      end)) /\
  stop (stop (self, io)).2 = (Returned tt, (stop (self, io)).2) /\
  isRunning (stop (self, io)).2.1 = false.
Proof.
  destruct self as [[p|] q]; cbn; repeat split; reflexivity.
Qed.

(** C3, counterexample.  After a successful [start], [stop] leaves the
    connected QMP object in [self._qmp], and the only effect it adds is the
    request to terminate. *)
Lemma stop_keeps_qmp :
  exists self1 io1 self2 io2,
    start (env_up_at 0) default_settings (Xqemu__init__, io0)
      = (Returned tt, (self1, io1)) /\
    stop (self1, io1) = (Returned tt, (self2, io2)) /\
    _p self2 = None /\
    _qmp self2 = Some {| qmp_id := 0; qmp_connected := true |} /\
    _qmp self2 <> None /\
    log io2 = log io1 ++ [Terminate 0].
Proof.
  eexists _, _, _, _. split; [vm_compute; reflexivity|].
  split; [vm_compute; reflexivity|]. vm_compute. repeat split. discriminate.
Qed.

(** ** [run_cmd] and the commands built on it *)

Lemma run_cmd_eq env cmd self io q :
  _qmp self = Some q ->
  run_cmd env cmd (self, io) =
  let io' := count_command (emit (Command (wire_request cmd)) io) in
  match qmp_cmd_obj env (commands io) (wire_request cmd) with
  | inl e => (Raised e, (self, io'))
  | inr JNull => (Raised (Exception "Disconnected!"), (self, io'))
  | inr resp => (Returned resp, (self, io'))
  end.
Proof.
  intros Hq. unfold run_cmd, cmd_obj, mbind, M_bind. rewrite Hq.
  cbv zeta.
  destruct (qmp_cmd_obj env (commands io) (wire_request cmd)) as [e|[]];
    reflexivity.
Qed.

(** C6 (as the code has it).  On an object that holds a QMP connection,
    [run_cmd] turns a command name into the request
    [{execute: name, arguments: {}}] (a ready request goes out as it is),
    calls [cmd_obj] once with it, and then either raises or returns the
    response it got, whole.  It raises [Exception('Disconnected!')] when
    [cmd_obj] returns [None]; when [cmd_obj] itself raises, as the library
    does on a broken connection, that exception passes through unchanged. *)
Theorem run_cmd_one_response env cmd self io q :
  _qmp self = Some q ->
  (forall name,
     wire_request (CmdName name)
     = JObj {[ "execute" := JStr name; "arguments" := JObj ∅ ]}) /\
  exists r,
    run_cmd env cmd (self, io) =
      (r, (self, count_command (emit (Command (wire_request cmd)) io))) /\
    (qmp_cmd_obj env (commands io) (wire_request cmd) = inr JNull ->
     r = Raised (Exception "Disconnected!")) /\
    (forall resp, r = Returned resp ->
       qmp_cmd_obj env (commands io) (wire_request cmd) = inr resp /\ resp <> JNull) /\
    (forall resp,
       qmp_cmd_obj env (commands io) (wire_request cmd) = inr resp -> resp <> JNull ->
       r = Returned resp) /\
    (forall e, qmp_cmd_obj env (commands io) (wire_request cmd) = inl e -> r = Raised e).
Proof.
  intros Hq. split; [reflexivity|].
  rewrite (run_cmd_eq _ _ _ _ _ Hq). cbv zeta.
  destruct (qmp_cmd_obj env (commands io) (wire_request cmd)) as [e|resp].
  - exists (Raised e). repeat split; congruence.
  - destruct resp; eexists; (split; [reflexivity|]);
      repeat split; try congruence; intros resp [= <-]; congruence.
Qed.

Lemma run_cmd_one_response_witness :
  exists r,
    run_cmd env_down (CmdName "cont")
      ({| _p := Some 0; _qmp := Some {| qmp_id := 0; qmp_connected := true |} |}, io0)
    = (r, ({| _p := Some 0; _qmp := Some {| qmp_id := 0; qmp_connected := true |} |},
           count_command (emit (Command (wire_request (CmdName "cont"))) io0))) /\
    r = Raised (Exception "Disconnected!").
Proof.
  destruct (run_cmd_one_response env_down (CmdName "cont")
              {| _p := Some 0; _qmp := Some {| qmp_id := 0; qmp_connected := true |} |}
              io0 _ eq_refl) as (_ & r & Hrun & Hnull & _).
  exists r. split; [exact Hrun|]. apply Hnull. reflexivity.
Defined.

(** C6, counterexample.  When the connection is reset under [cmd_obj], no
    response is received either, but [run_cmd] has no [try] around the call:
    what leaves it is the [socket.error] of the library, not
    ['Disconnected!']. *)
Lemma run_cmd_socket_error_passes :
  exists r io',
    run_cmd env_reset (CmdName "cont") (inst started_window, io0)
      = (r, (inst started_window, io')) /\
    log io' = [Command (command_object "cont")] /\
    r = Raised (SocketError "Connection reset by peer") /\
    r <> Raised (Exception "Disconnected!").
Proof.
  eexists _, _. split; [reflexivity|]. split; [reflexivity|].
  split; [reflexivity|discriminate].
Qed.

(** C8 (as the code has it).  [screenshot] takes no path.  On an object that
    holds a QMP connection it sends one request, [screendump] with the
    arguments [{filename: 'screenshot.ppm'}], whoever calls it; what it
    raises or returns is what [run_cmd] makes of the answer. *)
Theorem screenshot_fixed_filename env self io q :
  _qmp self = Some q ->
  exists r,
    screenshot env (self, io) =
      (r, (self, count_command (emit (Command screendump_request) io))) /\
    filename_of screendump_request = inr (JStr "screenshot.ppm") /\
    subscript screendump_request "execute" = inr (JStr "screendump").
Proof.
  intros Hq. unfold screenshot. rewrite (run_cmd_eq _ _ _ _ _ Hq). cbv zeta.
  change (wire_request (CmdObj _)) with screendump_request.
  destruct (qmp_cmd_obj env (commands io) screendump_request) as [e|[]];
    eexists; (split; [reflexivity|]); split; reflexivity.
Qed.

Lemma screenshot_fixed_filename_witness :
  exists r self' io',
    screenshot (env_up_at 0)
      ({| _p := Some 0; _qmp := Some {| qmp_id := 0; qmp_connected := true |} |}, io0)
    = (r, (self', io')) /\
    log io' = [Command screendump_request].
Proof.
  destruct (screenshot_fixed_filename (env_up_at 0)
              {| _p := Some 0; _qmp := Some {| qmp_id := 0; qmp_connected := true |} |}
              io0 _ eq_refl) as (r & Hrun & _).
  eexists r, _, _. split; [exact Hrun|reflexivity].
Defined.

(** C8, counterexample.  A caller who wants the image at [/tmp/shot.ppm]
    has no way to say so: the request that goes out names
    [screenshot.ppm]. *)
Lemma screenshot_ignores_caller_path :
  let outputPath := "/tmp/shot.ppm" in
  exists r self' io' req,
    screenshot (env_up_at 0)
      ({| _p := Some 0; _qmp := Some {| qmp_id := 0; qmp_connected := true |} |}, io0)
    = (r, (self', io')) /\
    log io' = [Command req] /\
    filename_of req = inr (JStr "screenshot.ppm") /\
    filename_of req <> inr (JStr outputPath).
Proof.
  eexists _, _, _, _. split; [reflexivity|]. split; [reflexivity|].
  split; [reflexivity|]. vm_compute. discriminate.
Qed.

(** ** The handlers of the window *)

Lemma eq_str_true v s : eq_str v s = true <-> v = JStr s.
Proof.
  destruct v; cbn; try (split; [discriminate|intros [=]]).
  rewrite bool_decide_eq_true. split; [intros ->; reflexivity|intros [= ->]; reflexivity].
Qed.

Lemma isPaused_eq env self io q resp ret status :
  _qmp self = Some q ->
  qmp_cmd_obj env (commands io) (request "query-status" ∅) = inr resp ->
  subscript resp "return" = inr ret ->
  subscript ret "status" = inr status ->
  isPaused env (self, io) =
    (Returned (eq_str status "paused"),
     (self, count_command (emit (Command (request "query-status" ∅)) io))).
Proof.
  intros Hq Hresp Hret Hstatus. unfold isPaused, mbind, M_bind.
  rewrite (run_cmd_eq _ _ _ _ _ Hq). cbv zeta. cbn [wire_request].
  rewrite Hresp. destruct resp; try discriminate Hret.
  rewrite Hret. cbn. rewrite Hstatus. reflexivity.
Qed.

(** C9.  The pause button does nothing while no process is held.  Otherwise
    it first sends [{"execute": "query-status", "arguments": {}}] and reads
    [resp['return']['status']].  When that is not the string ['paused'] it
    sends [{"execute": "stop", "arguments": {}}] and the button then offers
    [Continue]; when it is ['paused'] it sends
    [{"execute": "cont", "arguments": {}}] and the button offers [Pause].
    These two requests are all it sends, so the emulation, paused or not as
    the status said, is in the other state afterwards: paused after [stop],
    running after [cont].  The object itself is unchanged.  Both requests
    are taken to be answered. *)
Theorem onPauseButtonClicked_toggle env w io :
  (isRunning (inst w) = false ->
   onPauseButtonClicked env (w, io) = (Returned tt, (w, io))) /\
  (forall q paused resp2,
     isRunning (inst w) = true ->
     _qmp (inst w) = Some q ->
     reports_paused env (commands io) paused ->
     qmp_cmd_obj env (S (commands io))
       (command_object (if paused then "cont" else "stop")) = inr resp2 ->
     resp2 <> JNull ->
     exists w' io' evs,
       onPauseButtonClicked env (w, io) = (Returned tt, (w', io')) /\
       log io' = log io ++ evs /\
       evs = [Command (command_object "query-status");
              Command (command_object (if paused then "cont" else "stop"))] /\
       commands io' = S (S (commands io)) /\
       inst w' = inst w /\
       settings w' = settings w /\
       runButton w' = runButton w /\
       pauseButton w' = (if paused then "Pause" else "Continue") /\
       emulator_paused paused evs = negb paused).
Proof.
  split.
  - intros Hr. unfold onPauseButtonClicked, mbind, M_bind. cbn. rewrite Hr. reflexivity.
  - intros q paused resp2 Hr Hq (f & g & v & Hresp & Hf & Hg & Hv) Hresp2 Hnn.
    assert (Hp : eq_str v "paused" = paused).
    { destruct paused.
      - apply eq_str_true, Hv. reflexivity.
      - destruct (eq_str v "paused") eqn:E; [|reflexivity].
        apply eq_str_true, Hv in E. discriminate. }
    unfold onPauseButtonClicked, mbind, M_bind, get_self, on_inst. cbn [negb].
    rewrite Hr. cbn [negb].
    rewrite (isPaused_eq _ _ _ _ (JObj f) (JObj g) v Hq Hresp);
      [|cbn; rewrite Hf; reflexivity|cbn; rewrite Hg; reflexivity].
    rewrite Hp. unfold cont, pause.
    destruct paused; rewrite (run_cmd_eq _ _ _ _ _ Hq); cbv zeta;
      cbn [wire_request commands count_command emit];
      change (request "cont" ∅) with (command_object "cont");
      change (request "stop" ∅) with (command_object "stop");
      rewrite Hresp2;
      (destruct resp2; [congruence|..]);
      eexists _, _, _; (split; [reflexivity|]);
      cbn [log count_command emit commands inst settings runButton pauseButton
             pauseButton_setText];
      (split; [rewrite <- app_assoc; reflexivity|]);
      repeat split.
Qed.

Lemma onPauseButtonClicked_toggle_witness :
  onPauseButtonClicked (env_status "running") (MainWindow__init__ default_settings, io0)
    = (Returned tt, (MainWindow__init__ default_settings, io0)) /\
  (exists w' io',
     onPauseButtonClicked (env_status "running") (started_window, io0)
       = (Returned tt, (w', io')) /\
     log io' = [Command (command_object "query-status"); Command (command_object "stop")] /\
     pauseButton w' = "Continue") /\
  (exists w' io',
     onPauseButtonClicked (env_status "paused") (started_window, io0)
       = (Returned tt, (w', io')) /\
     log io' = [Command (command_object "query-status"); Command (command_object "cont")] /\
     pauseButton w' = "Pause").
Proof.
  destruct (onPauseButtonClicked_toggle (env_status "running")
              (MainWindow__init__ default_settings) io0) as [Hnoop _].
  split; [apply Hnoop; reflexivity|].
  destruct (onPauseButtonClicked_toggle (env_status "running") started_window io0)
    as [_ Hrunning].
  destruct (onPauseButtonClicked_toggle (env_status "paused") started_window io0)
    as [_ Hpaused].
  split.
  - destruct (Hrunning {| qmp_id := 0; qmp_connected := true |} false
                (JObj {[ "return" := JObj ∅ ]}))
      as (w' & io' & evs & Hrun & Hlog & -> & _ & _ & _ & _ & Hcap & _);
      try reflexivity; try discriminate.
    { exists {[ "return" := JObj {[ "status" := JStr "running" ]} ]},
             {[ "status" := JStr "running" ]}, (JStr "running").
      repeat split; try reflexivity; discriminate. }
    exists w', io'. split; [exact Hrun|]. split; [exact Hlog|exact Hcap].
  - destruct (Hpaused {| qmp_id := 0; qmp_connected := true |} true
                (JObj {[ "return" := JObj ∅ ]}))
      as (w' & io' & evs & Hrun & Hlog & -> & _ & _ & _ & _ & Hcap & _);
      try reflexivity; try discriminate.
    { exists {[ "return" := JObj {[ "status" := JStr "paused" ]} ]},
             {[ "status" := JStr "paused" ]}, (JStr "paused").
      repeat split; reflexivity. }
    exists w', io'. split; [exact Hrun|]. split; [exact Hlog|exact Hcap].
Defined.

(** C10.  The screenshot button does nothing while no process is held: no
    request is sent, nothing else happens, and the window is as before. *)
Theorem onScreenshotButtonClicked_stopped env w io :
  isRunning (inst w) = false ->
  onScreenshotButtonClicked env (w, io) = (Returned tt, (w, io)).
Proof.
  intros Hr. unfold onScreenshotButtonClicked, mbind, M_bind. cbn.
  rewrite Hr. reflexivity.
Qed.

Lemma onScreenshotButtonClicked_stopped_witness :
  isRunning (inst (MainWindow__init__ default_settings)) = false /\
  onScreenshotButtonClicked (env_up_at 0) (MainWindow__init__ default_settings, io0)
    = (Returned tt, (MainWindow__init__ default_settings, io0)).
Proof.
  split; [reflexivity|].
  apply (onScreenshotButtonClicked_stopped (env_up_at 0)
           (MainWindow__init__ default_settings) io0).
  reflexivity.
Defined.

(** ** One process at a time *)

Lemma alive_snoc evs ev : alive (evs ++ [ev]) = alive_step (alive evs) ev.
Proof. unfold alive. rewrite foldl_app. reflexivity. Qed.

Lemma stop_eq self io :
  stop (self, io) =
    (Returned tt,
     ({| _p := None; _qmp := _qmp self |},
      match _p self with
      | Some p => emit (Terminate p) io
      | None => io
      end)).
Proof. destruct self as [[p|] q]; reflexivity. Qed.

(** [start] either leaves the handle and the live processes alone, or has
    spawned one process and holds it. *)
Lemma start_alive env s self io r self' io' :
  start env s (self, io) = (r, (self', io')) ->
  (_p self' = _p self /\ alive (log io') = alive (log io)) \/
  (_p self' = Some (spawned io) /\
   alive (log io') = alive (log io) ∪ {[spawned io]}).
Proof.
  rewrite start_stages. destruct (first_invalid env s) as [f|].
  - intros [= <- <- <-]. left. auto.
  - unfold spawn_and_connect.
    destruct (subprocess_Popen env (spawned io) (launch_cmd s)) as [e0|].
    + intros [= <- <- <-]. left. split; [reflexivity|].
      cbn. rewrite !alive_snoc. reflexivity.
    + intros H. right.
      match type of H with
      | connect_loop env 0 (?x, ?o) = _ =>
          destruct (connect_loop_cases env x o)
            as [(n & x' & o' & _ & Hrun & Hp & _ & _ & _ & Hl)
               |(e1 & x' & o' & _ & Hrun & _ & Hp & _ & _ & Hl)]
      end; rewrite Hrun in H; injection H as <- <- <-;
        cbn -[failed_rounds attempt_events] in Hp, Hl;
        (split; [exact Hp|]); rewrite Hl; unfold alive;
        rewrite !foldl_app, ?alive_step_failed_rounds, ?alive_step_attempt_events;
        reflexivity.
Qed.

(** The protocol commands touch neither the handle nor the processes. *)
Lemma run_cmd_frame env cmd self io r self' io' :
  run_cmd env cmd (self, io) = (r, (self', io')) ->
  self' = self /\ alive (log io') = alive (log io).
Proof.
  unfold run_cmd, cmd_obj, mbind, M_bind.
  destruct (_qmp self); [|intros [= <- <- <-]; auto].
  destruct (qmp_cmd_obj env (commands io) _) as [e|[]];
    intros [= <- <- <-]; cbn; rewrite alive_snoc; auto.
Qed.

Lemma isPaused_frame env self io r self' io' :
  isPaused env (self, io) = (r, (self', io')) ->
  self' = self /\ alive (log io') = alive (log io).
Proof.
  unfold isPaused, mbind, M_bind.
  destruct (run_cmd env (CmdName "query-status") (self, io)) as [[resp|e] [x o]] eqn:R;
    apply run_cmd_frame in R; destruct R as [-> Ha].
  - destruct (subscript resp "return") as [e|ret]; cbn;
      [intros [= <- <- <-]; auto|].
    destruct (subscript ret "status") as [e|status]; cbn;
      intros [= <- <- <-]; auto.
  - intros [= <- <- <-]; auto.
Qed.

Lemma onRunButtonClicked_eq env w io :
  onRunButtonClicked env (w, io) =
  if isRunning (inst w)
  then
    (Returned tt,
     ({| inst := {| _p := None; _qmp := _qmp (inst w) |}; settings := settings w;
         runButton := "Start"; pauseButton := pauseButton w |},
      (stop (inst w, io)).2.2))
  else
    match start env (settings w) (inst w, io) with
    | (Returned _, (x, io1)) =>
        (Returned tt,
         ({| inst := x; settings := settings w;
             runButton := "Stop"; pauseButton := pauseButton w |}, io1))
    | (Raised e, (x, io1)) =>
        (Returned tt,
         ({| inst := x; settings := settings w;
             runButton := runButton w; pauseButton := pauseButton w |},
          emit (MessageBox "Error!" (str_exn e)) io1))
    end.
Proof.
  unfold onRunButtonClicked, mbind, M_bind, get_self, try_except, on_inst.
  destruct (isRunning (inst w)); cbn [negb].
  - rewrite stop_eq. reflexivity.
  - destruct (start env (settings w) (inst w, io)) as [[[]|e] [x io1]]; reflexivity.
Qed.

(** A handler that only runs protocol commands. *)
Lemma on_inst_frame {A} (m : method A) w io r w' io' :
  (forall self io r self' io',
     m (self, io) = (r, (self', io')) ->
     self' = self /\ alive (log io') = alive (log io)) ->
  on_inst m (w, io) = (r, (w', io')) ->
  w' = w /\ alive (log io') = alive (log io).
Proof.
  intros Hm. unfold on_inst.
  destruct (m (inst w, io)) as [r0 [x o]] eqn:E.
  destruct (Hm _ _ _ _ _ E) as [-> Ha]. intros [= <- <- <-].
  destruct w; auto.
Qed.

(** The settings dialog, on the state: the settings are replaced, the file
    is written or the write fails, and nothing else happens. *)
Lemma onSettingsClicked_eq s save_error w io :
  onSettingsClicked s save_error (w, io) =
    (match save_error with
     | None => Returned tt
     | Some e => Raised e
     end,
     ({| inst := inst w; settings := s;
         runButton := runButton w; pauseButton := pauseButton w |},
      emit (WriteFile SETTINGS_FILE (settings_dict s)
              (match save_error with None => true | Some _ => false end)) io)).
Proof. destruct save_error; reflexivity. Qed.

Lemma handle_owned env a w io r w' io' :
  handle env a (w, io) = (r, (w', io')) ->
  alive (log io) = owned (inst w) ->
  alive (log io') = owned (inst w').
Proof.
  destruct a; cbn [handle].
  - rewrite onRunButtonClicked_eq. unfold isRunning, owned.
    destruct (_p (inst w)) as [p|] eqn:P.
    + rewrite stop_eq, P. intros [= <- <- <-] Hinv. cbn.
      rewrite alive_snoc, Hinv. cbn. apply difference_diag_L.
    + destruct (start env (settings w) (inst w, io)) as [[[]|e] [x io1]] eqn:S;
        intros [= <- <- <-] Hinv; cbn; rewrite ?alive_snoc; cbn [alive_step];
        (destruct (start_alive _ _ _ _ _ _ _ S) as [[Hp Ha]|[Hp Ha]];
         rewrite Ha, Hp, ?P, Hinv; [reflexivity|apply union_empty_l_L]).
  - unfold onPauseButtonClicked, mbind, M_bind, get_self.
    destruct (negb (isRunning (inst w))); [intros [= <- <- <-]; auto|].
    destruct (on_inst (isPaused env) (w, io)) as [[b|e] [w1 io1]] eqn:E1;
      apply (on_inst_frame _ _ _ _ _ _ (isPaused_frame env)) in E1;
      destruct E1 as [-> Ha1]; [|intros [= <- <- <-]; congruence].
    destruct b.
    + destruct (on_inst (cont env) (w, io1)) as [[b|e] [w2 io2]] eqn:E2;
        apply (on_inst_frame _ _ _ _ _ _ (run_cmd_frame env _)) in E2;
        destruct E2 as [-> Ha2]; intros [= <- <- <-]; cbn; congruence.
    + destruct (on_inst (pause env) (w, io1)) as [[b|e] [w2 io2]] eqn:E2;
        apply (on_inst_frame _ _ _ _ _ _ (run_cmd_frame env _)) in E2;
        destruct E2 as [-> Ha2]; intros [= <- <- <-]; cbn; congruence.
  - unfold onScreenshotButtonClicked, mbind, M_bind, get_self.
    destruct (negb (isRunning (inst w))); [intros [= <- <- <-]; auto|].
    destruct (on_inst (screenshot env) (w, io)) as [[b|e] [w1 io1]] eqn:E1;
      apply (on_inst_frame _ _ _ _ _ _ (run_cmd_frame env _)) in E1;
      destruct E1 as [-> Ha1]; intros [= <- <- <-]; congruence.
  - unfold onRestartButtonClicked, mbind, M_bind, get_self.
    destruct (negb (isRunning (inst w))); [intros [= <- <- <-]; auto|].
    destruct (on_inst (restart env) (w, io)) as [[b|e] [w1 io1]] eqn:E1;
      apply (on_inst_frame _ _ _ _ _ _ (run_cmd_frame env _)) in E1;
      destruct E1 as [-> Ha1]; intros [= <- <- <-]; congruence.
  - rewrite onSettingsClicked_eq. intros [= <- <- <-] Hinv. cbn.
    rewrite alive_snoc. exact Hinv.
  - unfold onExitClicked, on_inst. rewrite stop_eq. intros [= <- <- <-] Hinv.
    unfold owned in *. cbn. destruct (_p (inst w)) as [p|]; [|exact Hinv].
    cbn. rewrite alive_snoc, Hinv. cbn. apply difference_diag_L.
Qed.

(** C5 (as the code has it).  [Xqemu.start] itself does not look at
    [self._p]; the guard is in [onRunButtonClicked], which starts only when
    [isRunning] is false and stops otherwise.  So in every state the window
    reaches through its handlers, whatever the world answers, the processes
    spawned and not yet asked to terminate are exactly the one whose handle
    is held, if any: never more than one. *)
Theorem one_process_through_window s st :
  rtc gui_step (MainWindow__init__ s, io0) st ->
  alive (log st.2) = owned (inst st.1) /\
  size (alive (log st.2)) <= 1.
Proof.
  intros Hreach.
  assert (Hinv : alive (log st.2) = owned (inst st.1)).
  { revert st Hreach.
    apply (rtc_ind_r (fun st => alive (log st.2) = owned (inst st.1)));
      [reflexivity|]. intros st1 st2 Hreach Hstep IH.
    destruct Hstep as (env & a & Hstep). destruct st1 as [w io], st2 as [w' io'].
    destruct (handle env a (w, io)) as [r st2] eqn:H. cbn in Hstep. subst st2.
    exact (handle_owned _ _ _ _ _ _ _ H IH). }
  split; [exact Hinv|]. rewrite Hinv. unfold owned.
  destruct (_p (inst st.1)); [rewrite size_singleton|rewrite size_empty]; lia.
Qed.

Lemma one_process_through_window_witness :
  exists st,
    rtc gui_step (MainWindow__init__ default_settings, io0) st /\
    isRunning (inst st.1) = true /\
    alive (log st.2) = owned (inst st.1) /\
    size (alive (log st.2)) <= 1.
Proof.
  exists (handle (env_up_at 1) RunButton (MainWindow__init__ default_settings, io0)).2.
  assert (Hreach : rtc gui_step (MainWindow__init__ default_settings, io0)
            (handle (env_up_at 1) RunButton (MainWindow__init__ default_settings, io0)).2).
  { apply rtc_once. exists (env_up_at 1), RunButton. reflexivity. }
  split; [exact Hreach|]. split; [reflexivity|].
  exact (one_process_through_window _ _ Hreach).
Defined.

(** C5, counterexample.  Called on an object that already runs an
    emulator, [start] is not rejected: it spawns a second process and
    overwrites the handle of the first, which stays alive. *)
Lemma start_twice_spawns_twice :
  exists self1 io1 self2 io2,
    start (env_up_at 0) default_settings (Xqemu__init__, io0)
      = (Returned tt, (self1, io1)) /\
    isRunning self1 = true /\
    start (env_up_at 0) default_settings (self1, io1)
      = (Returned tt, (self2, io2)) /\
    count is_spawn (log io2) = 2 /\
    alive (log io2) = {[0; 1]} /\
    _p self2 = Some 1.
Proof.
  eexists _, _, _, _. split; [vm_compute; reflexivity|].
  split; [reflexivity|]. split; [vm_compute; reflexivity|].
  split; [reflexivity|]. split; [|reflexivity].
  apply (bool_decide_unpack _). vm_compute. exact I.
Qed.

(** * Further properties of the code *)

(** ** [start]: the successful run and what any run may do *)

Lemma slept_app evs1 evs2 : slept (evs1 ++ evs2) = slept evs1 + slept evs2.
Proof.
  induction evs1 as [|ev evs1 IH]; [reflexivity|].
  destruct ev; cbn; rewrite IH; lia.
Qed.

Lemma count_app f evs1 evs2 : count f (evs1 ++ evs2) = count f evs1 + count f evs2.
Proof. unfold count. rewrite filter_app, length_app. reflexivity. Qed.

Lemma count_cons f ev evs :
  count f (ev :: evs) = (if f ev then 1 else 0) + count f evs.
Proof.
  unfold count. rewrite filter_cons.
  destruct (f ev); destruct (decide _); cbn; congruence.
Qed.

Lemma attempt_events_facts i k ok :
  Forall (fun ev => start_event ev = true) (attempt_events i k ok) /\
  slept (attempt_events i k ok) = (if decide (0 < i) then 1 else 0) /\
  count is_connect (attempt_events i k ok) = 1 /\
  count is_popen (attempt_events i k ok) = 0.
Proof.
  unfold attempt_events. destruct (decide (0 < i)); cbn;
    repeat split; repeat constructor.
Qed.

Lemma failed_rounds_facts n : forall i k,
  Forall (fun ev => start_event ev = true) (failed_rounds i k n) /\
  slept (failed_rounds i k n) <= n /\
  (i = 0 -> 0 < n -> S (slept (failed_rounds i k n)) <= n) /\
  count is_connect (failed_rounds i k n) = n /\
  count is_popen (failed_rounds i k n) = 0.
Proof.
  induction n as [|n IH]; intros i k; cbn [failed_rounds].
  - repeat split; try constructor; intros; lia.
  - destruct (IH (S i) (S k)) as (Hf & Hs & _ & Hc & Hp).
    destruct (attempt_events_facts i k false) as (Hf1 & Hs1 & Hc1 & Hp1).
    rewrite slept_app, !count_app, Hs1, Hc1, Hp1, Hc, Hp.
    repeat split; try lia.
    + apply Forall_app; auto.
    + destruct (decide (0 < i)); lia.
    + intros -> _. destruct (decide (0 < 0)); lia.
Qed.

(** Every run of the loop from a fresh counter, by what it leaves behind. *)
Lemma connect_loop_run env self io :
  exists r self' io' evs,
    connect_loop env 0 (self, io) = (r, (self', io')) /\
    log io' = log io ++ evs /\
    _p self' = _p self /\
    spawned io' = spawned io /\ commands io' = commands io /\
    attempts io < attempts io' <= attempts io + 6 /\
    Forall (fun ev => start_event ev = true) evs /\
    slept evs <= 5 /\
    count is_connect evs = attempts io' - attempts io /\
    count is_popen evs = 0.
Proof.
  destruct (first_connected env (attempts io) 6) as [n|] eqn:F.
  - destruct (first_connected_Some _ _ _ _ F) as (Hn & Hfail & Hok).
    destruct (connect_loop_succeeds env n 0 self io ltac:(lia) Hfail Hok)
      as (self' & io' & Hrun & Hp & _ & Hs & Hc & Ha & Hl).
    destruct (failed_rounds_facts n 0 (attempts io)) as (Hf & Hsl & Hsl0 & Hcc & Hcp).
    destruct (attempt_events_facts (0 + n) (attempts io + n) true) as (Hf1 & Hs1 & Hc1 & Hp1).
    eexists _, self', io', _. split; [exact Hrun|]. split; [exact Hl|].
    rewrite slept_app, !count_app, Hs1, Hc1, Hp1, Hcc, Hcp.
    repeat split; auto; try lia.
    + apply Forall_app; auto.
    + destruct n as [|n];
        [destruct (decide (0 < 0 + 0)); cbn [failed_rounds slept]; lia|].
      specialize (Hsl0 eq_refl ltac:(lia)).
      destruct (decide (0 < 0 + S n)); lia.
  - pose proof (first_connected_None _ _ _ F) as Hfail.
    destruct (connect_loop_fails env 5 0 self io eq_refl) as
      (e & self' & io' & Hrun & _ & Hp & Hs & Hc & Ha & Hl).
    { intros j Hj. apply Hfail. lia. }
    destruct (failed_rounds_facts 6 0 (attempts io)) as (Hf & Hsl & Hsl0 & Hcc & Hcp).
    specialize (Hsl0 eq_refl ltac:(lia)).
    eexists _, self', io', _. split; [exact Hrun|]. split; [exact Hl|].
    rewrite Hcc, Hcp. repeat split; auto; lia.
Qed.

(** X1.  [start] returns normally exactly when every active path passes
    [check_path], [Popen] does not raise and one of the six connection
    attempts is accepted.  The object then holds the process just spawned
    and the QMP object of the accepted attempt, connected; [isRunning] is
    true, one process has been added to the live ones and no command was
    sent. *)
Theorem start_returns env s self io :
  ((exists st', start env s (self, io) = (Returned tt, st')) <->
   first_invalid env s = None /\
   subprocess_Popen env (spawned io) (launch_cmd s) = None /\
   is_Some (first_connected env (attempts io) 6)) /\
  (forall self' io',
     start env s (self, io) = (Returned tt, (self', io')) ->
     exists n,
       first_connected env (attempts io) 6 = Some n /\
       _p self' = Some (spawned io) /\
       _qmp self' = Some {| qmp_id := attempts io + n; qmp_connected := true |} /\
       isRunning self' = true /\
       alive (log io') = alive (log io) ∪ {[spawned io]} /\
       spawned io' = S (spawned io) /\
       commands io' = commands io).
Proof.
  rewrite start_stages. destruct (first_invalid env s) as [f|].
  { split; [split|]; [intros [st' H]; discriminate
                     |intros (H & _); discriminate|intros; discriminate]. }
  unfold spawn_and_connect.
  destruct (subprocess_Popen env (spawned io) (launch_cmd s)) as [e0|].
  { split; [split|]; [intros [st' H]; discriminate
                     |intros (_ & H & _); discriminate|intros; discriminate]. }
  match goal with
  | |- context [connect_loop env 0 (?x, ?o)] =>
      destruct (connect_loop_cases env x o)
        as [(n & x' & o' & F & Hrun & Hp & Hq & Hs & Hc & Hl)
           |(e1 & x' & o' & F & Hrun & _)]
  end; rewrite Hrun; cbn [attempts count_spawn emit] in F.
  - cbn -[failed_rounds attempt_events] in Hp, Hq, Hs, Hc, Hl.
    rewrite F. split; [split; eauto|].
    intros self' io' [= <- <-]. exists n. repeat split; auto.
    + unfold isRunning. rewrite Hp. reflexivity.
    + rewrite Hl. unfold alive.
      rewrite !foldl_app, alive_step_attempt_events, alive_step_failed_rounds.
      reflexivity.
  - rewrite F. split; [split|]; [intros [st' H]; discriminate
                               |intros (_ & _ & [? H]); discriminate
                               |intros; discriminate].
Qed.

(** X2.  Whatever the world answers, one call of [start] calls [Popen] at
    most once, makes at most six connection attempts, sleeps at most five
    seconds in all, and has no other effects than printing, spawning,
    sleeping and connecting: it sends no command and terminates nothing. *)
Theorem start_bounded env s self io :
  exists r self' io' evs,
    start env s (self, io) = (r, (self', io')) /\
    log io' = log io ++ evs /\
    Forall (fun ev => start_event ev = true) evs /\
    count is_popen evs <= 1 /\
    count is_popen evs = spawned io' - spawned io /\
    count is_connect evs <= 6 /\
    count is_connect evs = attempts io' - attempts io /\
    slept evs <= 5 /\
    commands io' = commands io.
Proof.
  rewrite start_stages. destruct (first_invalid env s) as [f|].
  { eexists _, _, _, []. split; [reflexivity|]. rewrite app_nil_r.
    split; [reflexivity|]. split; [constructor|]. cbn. repeat split; lia. }
  unfold spawn_and_connect.
  destruct (subprocess_Popen env (spawned io) (launch_cmd s)) as [e0|].
  { eexists _, _, _, [_; _]. split; [reflexivity|]. cbn [log count_spawn emit].
    rewrite <- app_assoc. split; [reflexivity|].
    split; [repeat constructor|].
    rewrite !count_cons. cbn -[launch_cmd join]. repeat split; lia. }
  match goal with
  | |- context [connect_loop env 0 (?x, ?o)] =>
      destruct (connect_loop_run env x o)
        as (r & x' & o' & evs & Hrun & Hl & _ & Hs & Hc & Ha & Hf & Hsl & Hcc & Hcp)
  end. rewrite Hrun. cbn [log count_spawn emit spawned attempts commands] in *.
  eexists r, x', o', (_ :: _ :: evs). split; [reflexivity|].
  split; [rewrite Hl, <- !app_assoc; reflexivity|].
  change (?a :: ?b :: evs) with ([a; b] ++ evs).
  rewrite !count_app, slept_app, Hcc, Hcp, Hs.
  split; [repeat constructor; exact Hf|].
  rewrite !count_cons. cbn -[launch_cmd join]. repeat split; lia.
Qed.

(** ** [start] followed by [stop] *)

Lemma alive_add_remove (A : gset proc) p : p ∉ A -> (A ∪ {[p]}) ∖ {[p]} = A.
Proof.
  intros Hp. rewrite difference_union_distr_l_L, difference_diag_L, union_empty_r_L.
  apply difference_disjoint_L, disjoint_singleton_r, Hp.
Qed.

(** X3.  On an object that holds no process, [stop] after [start] undoes
    whatever [start] did to the processes, however [start] ended: when it
    returned and also when it raised with the listener unreachable, the
    process it spawned is asked to terminate; otherwise there is none.  The
    live processes are those from before and [isRunning] is false. *)
Theorem start_then_stop env s self io r self1 io1 :
  _p self = None ->
  spawned io ∉ alive (log io) ->
  start env s (self, io) = (r, (self1, io1)) ->
  exists self2 io2,
    stop (self1, io1) = (Returned tt, (self2, io2)) /\
    isRunning self2 = false /\
    alive (log io2) = alive (log io) /\
    (isRunning self1 = true -> log io2 = log io1 ++ [Terminate (spawned io)]) /\
    (isRunning self1 = false -> io2 = io1).
Proof.
  intros Hnone Hfresh Hstart. rewrite stop_eq. eexists _, _.
  split; [reflexivity|]. split; [reflexivity|].
  unfold isRunning.
  destruct (start_alive _ _ _ _ _ _ _ Hstart) as [[Hp Ha]|[Hp Ha]]; rewrite Hp, ?Hnone.
  - repeat split; auto; discriminate.
  - cbn. rewrite alive_snoc, Ha. cbn.
    repeat split; auto; [apply alive_add_remove, Hfresh|discriminate].
Qed.

Lemma start_then_stop_witness :
  exists r self1 io1 self2 io2,
    start env_down default_settings (Xqemu__init__, io0) = (r, (self1, io1)) /\
    stop (self1, io1) = (Returned tt, (self2, io2)) /\
    isRunning self1 = true /\
    alive (log io2) = ∅.
Proof.
  destruct (start env_down default_settings (Xqemu__init__, io0))
    as [r [self1 io1]] eqn:E.
  destruct (start_then_stop env_down default_settings Xqemu__init__ io0 r self1 io1
              eq_refl (not_elem_of_empty (C:=gset proc) 0) E)
    as (self2 & io2 & Hstop & _ & Ha & _).
  exists r, self1, io1, self2, io2. split; [reflexivity|]. split; [exact Hstop|].
  split; [|exact Ha].
  vm_compute in E. injection E as _ <- _. reflexivity.
Defined.

(** ** The run button *)

Lemma start_returned_running env s self io self' io' :
  start env s (self, io) = (Returned tt, (self', io')) ->
  isRunning self' = true.
Proof.
  rewrite start_stages. destruct (first_invalid env s); [discriminate|].
  unfold spawn_and_connect.
  destruct (subprocess_Popen env (spawned io) (launch_cmd s)); [discriminate|].
  match goal with
  | |- context [connect_loop env 0 (?x, ?o)] =>
      destruct (connect_loop_cases env x o)
        as [(n & x' & o' & _ & Hrun & Hp & _)|(e1 & x' & o' & _ & Hrun & _)]
  end; rewrite Hrun; [|discriminate].
  intros [= <- <-]. unfold isRunning. rewrite Hp. reflexivity.
Qed.

(** X4.  The run button never lets an exception out and never touches the
    settings or the caption of the pause button.  While an instance runs it
    stops it and offers [Start].  Otherwise it starts one: when [start]
    returns the button offers [Stop]; when [start] raises, the message of
    the exception is shown in a message box, which is the last effect, and
    the caption stays what it was. *)
Theorem onRunButtonClicked_returns env w io :
  exists w' io',
    onRunButtonClicked env (w, io) = (Returned tt, (w', io')) /\
    settings w' = settings w /\
    pauseButton w' = pauseButton w /\
    (isRunning (inst w) = true ->
     runButton w' = "Start" /\ isRunning (inst w') = false) /\
    (isRunning (inst w) = false ->
     forall r x io1,
       start env (settings w) (inst w, io) = (r, (x, io1)) ->
       inst w' = x /\
       match r with
       | Returned _ => runButton w' = "Stop" /\ io' = io1 /\ isRunning x = true
       | Raised e =>
           runButton w' = runButton w /\
           io' = emit (MessageBox "Error!" (str_exn e)) io1
       end).
Proof.
  rewrite onRunButtonClicked_eq. destruct (isRunning (inst w)) eqn:R.
  - eexists _, _. split; [reflexivity|]. cbn.
    split; [reflexivity|]. split; [reflexivity|]. split; [auto|discriminate].
  - destruct (start env (settings w) (inst w, io)) as [[[]|e] [x io1]] eqn:S;
      eexists _, _; (split; [reflexivity|]); cbn;
      (split; [reflexivity|]); (split; [reflexivity|]); (split; [discriminate|]);
      intros _ r x' io1' [= <- <- <-]; repeat split.
    apply (start_returned_running _ _ _ _ _ _ S).
Qed.

(** X5.  When [start] raises after the spawn, the run button still offers
    what it offered before although the object now holds a process; the
    next click, whatever the world then answers, does not start anything:
    it asks that process to terminate, clears the handle and offers
    [Start]. *)
Theorem failed_connect_next_click_stops env env2 w io e x io1 p :
  isRunning (inst w) = false ->
  start env (settings w) (inst w, io) = (Raised e, (x, io1)) ->
  _p x = Some p ->
  exists w1 io1' w2 io2,
    onRunButtonClicked env (w, io) = (Returned tt, (w1, io1')) /\
    runButton w1 = runButton w /\
    isRunning (inst w1) = true /\
    onRunButtonClicked env2 (w1, io1') = (Returned tt, (w2, io2)) /\
    log io2 = log io1' ++ [Terminate p] /\
    spawned io2 = spawned io1' /\
    isRunning (inst w2) = false /\
    runButton w2 = "Start".
Proof.
  intros R S P. rewrite onRunButtonClicked_eq, R, S.
  eexists _, _, _, _. split; [reflexivity|].
  rewrite onRunButtonClicked_eq. cbn [inst isRunning]. unfold isRunning.
  rewrite P, stop_eq, P. cbn.
  repeat split.
Qed.

Lemma failed_connect_next_click_stops_witness :
  exists w1 io1 w2 io2,
    onRunButtonClicked env_down (MainWindow__init__ default_settings, io0)
      = (Returned tt, (w1, io1)) /\
    runButton w1 = "Start" /\
    isRunning (inst w1) = true /\
    onRunButtonClicked (env_up_at 0) (w1, io1) = (Returned tt, (w2, io2)) /\
    log io2 = log io1 ++ [Terminate 0].
Proof.
  destruct (start env_down default_settings (Xqemu__init__, io0))
    as [r [x io1]] eqn:S.
  assert (Hr : r = Raised (SocketError "refused 5") /\ _p x = Some 0).
  { vm_compute in S. injection S as <- <- _. split; reflexivity. }
  destruct Hr as [-> P].
  destruct (failed_connect_next_click_stops env_down (env_up_at 0)
              (MainWindow__init__ default_settings) io0 _ x io1 0 eq_refl S P)
    as (w1 & io1' & w2 & io2 & H1 & Hb & Hr & H2 & Hl & _).
  exists w1, io1', w2, io2. auto.
Defined.

(** ** What holds in every state the window reaches *)

Lemma reachable_alive_owned s st :
  rtc gui_step (MainWindow__init__ s, io0) st ->
  alive (log st.2) = owned (inst st.1).
Proof.
  revert st. apply (rtc_ind_r (fun st => alive (log st.2) = owned (inst st.1)));
    [reflexivity|]. intros [w io] [w' io'] _ (env & a & Hstep) IH.
  destruct (handle env a (w, io)) as [r st2] eqn:H. cbn in Hstep. subst st2.
  exact (handle_owned _ _ _ _ _ _ _ H IH).
Qed.

(** The handlers that only talk to the emulator leave the instance and the
    caption of the run button alone. *)
Lemma protocol_handlers_keep env a w io r w' io' :
  a = PauseButton \/ a = ScreenshotButton \/ a = RestartButton ->
  handle env a (w, io) = (r, (w', io')) ->
  inst w' = inst w /\ runButton w' = runButton w /\ settings w' = settings w.
Proof.
  intros [->|[->| ->]]; cbn [handle].
  - unfold onPauseButtonClicked, mbind, M_bind, get_self.
    destruct (negb (isRunning (inst w))); [intros [= <- <- <-]; auto|].
    destruct (on_inst (isPaused env) (w, io)) as [[b|e] [w1 io1]] eqn:E1;
      apply (on_inst_frame _ _ _ _ _ _ (isPaused_frame env)) in E1;
      destruct E1 as [-> _]; [|intros [= <- <- <-]; auto].
    destruct b.
    + destruct (on_inst (cont env) (w, io1)) as [[b|e] [w2 io2]] eqn:E2;
        apply (on_inst_frame _ _ _ _ _ _ (run_cmd_frame env _)) in E2;
        destruct E2 as [-> _]; intros [= <- <- <-]; auto.
    + destruct (on_inst (pause env) (w, io1)) as [[b|e] [w2 io2]] eqn:E2;
        apply (on_inst_frame _ _ _ _ _ _ (run_cmd_frame env _)) in E2;
        destruct E2 as [-> _]; intros [= <- <- <-]; auto.
  - unfold onScreenshotButtonClicked, mbind, M_bind, get_self.
    destruct (negb (isRunning (inst w))); [intros [= <- <- <-]; auto|].
    destruct (on_inst (screenshot env) (w, io)) as [[b|e] [w1 io1]] eqn:E1;
      apply (on_inst_frame _ _ _ _ _ _ (run_cmd_frame env _)) in E1;
      destruct E1 as [-> _]; intros [= <- <- <-]; auto.
  - unfold onRestartButtonClicked, mbind, M_bind, get_self.
    destruct (negb (isRunning (inst w))); [intros [= <- <- <-]; auto|].
    destruct (on_inst (restart env) (w, io)) as [[b|e] [w1 io1]] eqn:E1;
      apply (on_inst_frame _ _ _ _ _ _ (run_cmd_frame env _)) in E1;
      destruct E1 as [-> _]; intros [= <- <- <-]; auto.
Qed.

(** X6.  In every state the window reaches through its buttons and the
    settings dialog, the run button offers [Start] or [Stop], and whenever it
    offers [Stop] a process is held.  (The converse fails after a [start]
    that raised at the connection stage.) *)
Theorem run_caption_invariant s st :
  rtc gui_step_on (MainWindow__init__ s, io0) st ->
  (runButton st.1 = "Start" \/ runButton st.1 = "Stop") /\
  (runButton st.1 = "Stop" -> isRunning (inst st.1) = true).
Proof.
  revert st.
  apply (rtc_ind_r (fun st =>
           (runButton st.1 = "Start" \/ runButton st.1 = "Stop") /\
           (runButton st.1 = "Stop" -> isRunning (inst st.1) = true)));
    [split; [left; reflexivity|discriminate]|].
  intros [w io] [w' io'] _ (env & a & Hon & Hstep) [Hcap Hrun]. cbn [fst snd] in *.
  destruct (handle env a (w, io)) as [r st2] eqn:H. cbn in Hstep. subst st2.
  destruct a; [| | | | |congruence].
  - cbn [handle] in H. rewrite onRunButtonClicked_eq in H.
    destruct (isRunning (inst w)) eqn:R.
    + injection H as <- <- <-. cbn. split; [auto|discriminate].
    + destruct (start env (settings w) (inst w, io)) as [[[]|e] [x io1]] eqn:S;
        injection H as <- <- <-; cbn.
      * split; [auto|]. intros _. apply (start_returned_running _ _ _ _ _ _ S).
      * split; [exact Hcap|]. intros Hstop. apply Hrun in Hstop. congruence.
  - destruct (protocol_handlers_keep _ _ _ _ _ _ _ (or_introl eq_refl) H)
      as (-> & -> & _). auto.
  - destruct (protocol_handlers_keep _ _ _ _ _ _ _ (or_intror (or_introl eq_refl)) H)
      as (-> & -> & _). auto.
  - destruct (protocol_handlers_keep _ _ _ _ _ _ _ (or_intror (or_intror eq_refl)) H)
      as (-> & -> & _). auto.
  - cbn [handle] in H. rewrite onSettingsClicked_eq in H.
    injection H as <- <- <-. cbn. auto.
Qed.

Lemma run_caption_invariant_witness :
  exists st,
    rtc gui_step_on (MainWindow__init__ default_settings, io0) st /\
    runButton st.1 = "Stop" /\
    isRunning (inst st.1) = true.
Proof.
  exists (handle (env_up_at 1) RunButton (MainWindow__init__ default_settings, io0)).2.
  assert (Hreach : rtc gui_step_on (MainWindow__init__ default_settings, io0)
            (handle (env_up_at 1) RunButton (MainWindow__init__ default_settings, io0)).2).
  { apply rtc_once. exists (env_up_at 1), RunButton. split; [discriminate|reflexivity]. }
  split; [exact Hreach|].
  destruct (run_caption_invariant _ _ Hreach) as [_ Hrun].
  split; [reflexivity|]. apply Hrun. reflexivity.
Defined.

(** X7.  The exit action leaves no live process behind: from every state
    the window reaches through its handlers, [onExitClicked] asks the held
    process, if any, to terminate before the program ends. *)
Theorem exit_leaves_no_process s st env :
  rtc gui_step (MainWindow__init__ s, io0) st ->
  exists r st',
    handle env ExitAction st = (r, st') /\
    r = Returned tt /\
    alive (log st'.2) = ∅ /\
    isRunning (inst st'.1) = false /\
    (forall p, _p (inst st.1) = Some p -> log st'.2 = log st.2 ++ [Terminate p]).
Proof.
  intros Hreach. pose proof (reachable_alive_owned _ _ Hreach) as Hinv.
  destruct st as [w io]. cbn [fst snd] in *.
  cbn [handle]. unfold onExitClicked, on_inst. rewrite stop_eq.
  eexists _, _. split; [reflexivity|]. split; [reflexivity|]. cbn.
  unfold owned in Hinv. destruct (_p (inst w)) as [p|].
  - cbn. rewrite alive_snoc, Hinv. cbn.
    repeat split; [apply difference_diag_L|]. intros q [= <-]. reflexivity.
  - repeat split; [exact Hinv|discriminate].
Qed.

Lemma exit_leaves_no_process_witness :
  exists st st',
    rtc gui_step (MainWindow__init__ default_settings, io0) st /\
    isRunning (inst st.1) = true /\
    (handle env_down ExitAction st).2 = st' /\
    alive (log st'.2) = ∅.
Proof.
  exists (handle (env_up_at 1) RunButton (MainWindow__init__ default_settings, io0)).2.
  assert (Hreach : rtc gui_step (MainWindow__init__ default_settings, io0)
            (handle (env_up_at 1) RunButton (MainWindow__init__ default_settings, io0)).2).
  { apply rtc_once. exists (env_up_at 1), RunButton. reflexivity. }
  destruct (exit_leaves_no_process _ _ env_down Hreach) as (r & st' & H & _ & Ha & _).
  exists st'. split; [exact Hreach|]. split; [reflexivity|].
  rewrite H. split; [reflexivity|exact Ha].
Defined.

(** ** The protocol commands *)

Lemma run_cmd_no_qmp env cmd self io :
  _qmp self = None ->
  run_cmd env cmd (self, io) =
    (Raised (AttributeError "'NoneType' object has no attribute 'cmd_obj'"), (self, io)).
Proof. intros Hq. unfold run_cmd, cmd_obj, mbind, M_bind. rewrite Hq. reflexivity. Qed.

(** X8.  [run_cmd] (and so [pause], [cont], [restart], [screenshot]) and
    [isPaused] never change the object, whether they return or raise: after
    ['Disconnected!'] the process handle is still held and [isRunning] is
    still true.  They spawn and terminate nothing.  With a QMP object they
    send exactly one request; on an object that never got one they send
    none and raise [AttributeError]. *)
Theorem protocol_commands_frame env self io :
  (forall cmd, exists r io',
     run_cmd env cmd (self, io) = (r, (self, io')) /\
     alive (log io') = alive (log io) /\
     spawned io' = spawned io /\ attempts io' = attempts io /\
     match _qmp self with
     | Some _ => io' = count_command (emit (Command (wire_request cmd)) io)
     | None =>
         io' = io /\
         r = Raised (AttributeError "'NoneType' object has no attribute 'cmd_obj'")
     end) /\
  (exists r io',
     isPaused env (self, io) = (r, (self, io')) /\
     alive (log io') = alive (log io) /\
     spawned io' = spawned io /\ attempts io' = attempts io /\
     match _qmp self with
     | Some _ =>
         io' = count_command (emit (Command (request "query-status" ∅)) io)
     | None =>
         io' = io /\
         r = Raised (AttributeError "'NoneType' object has no attribute 'cmd_obj'")
     end).
Proof.
  assert (Hcmd : forall cmd, exists r io',
     run_cmd env cmd (self, io) = (r, (self, io')) /\
     alive (log io') = alive (log io) /\
     spawned io' = spawned io /\ attempts io' = attempts io /\
     match _qmp self with
     | Some _ => io' = count_command (emit (Command (wire_request cmd)) io)
     | None =>
         io' = io /\
         r = Raised (AttributeError "'NoneType' object has no attribute 'cmd_obj'")
     end).
  { intros cmd. destruct (_qmp self) as [q|] eqn:Hq.
    - rewrite (run_cmd_eq _ _ _ _ _ Hq). cbv zeta.
      destruct (qmp_cmd_obj env (commands io) (wire_request cmd)) as [e|[]];
        eexists _, _; (split; [reflexivity|]); cbn; rewrite alive_snoc; auto.
    - rewrite (run_cmd_no_qmp _ _ _ _ Hq). eexists _, _. split; [reflexivity|]. auto. }
  split; [exact Hcmd|].
  destruct (Hcmd (CmdName "query-status")) as (r & io' & Hrun & Ha & Hs & Hat & Hq).
  unfold isPaused, mbind, M_bind. rewrite Hrun.
  destruct r as [resp|e].
  - destruct (_qmp self); [|destruct Hq; discriminate].
    destruct (subscript resp "return") as [e|ret]; cbn;
      [eexists _, _; split; [reflexivity|]; auto|].
    destruct (subscript ret "status") as [e|status]; cbn;
      eexists _, _; (split; [reflexivity|]); auto.
  - eexists _, _. split; [reflexivity|]. repeat split; auto.
    destruct (_qmp self); [exact Hq|]. destruct Hq as [-> [= ->]]. auto.
Qed.

(** X9.  What [isPaused] makes of the answer to [query-status], on an object
    with a QMP connection.  It returns [True] exactly when the answer is an
    object whose ['return'] is an object whose ['status'] is the string
    ['paused'].  An object without a ['return'] key, such as an error reply,
    raises [KeyError('return')]; a ['return'] object without ['status']
    raises [KeyError('status')]; no answer raises ['Disconnected!']. *)
Theorem isPaused_reads_status env self io q resp :
  _qmp self = Some q ->
  qmp_cmd_obj env (commands io) (request "query-status" ∅) = inr resp ->
  exists r,
    isPaused env (self, io) =
      (r, (self, count_command (emit (Command (request "query-status" ∅)) io))) /\
    (r = Returned true <->
     exists f g, resp = JObj f /\ f !! "return" = Some (JObj g) /\
                 g !! "status" = Some (JStr "paused")) /\
    (resp = JNull -> r = Raised (Exception "Disconnected!")) /\
    (forall f, resp = JObj f -> f !! "return" = None -> r = Raised (KeyError "return")) /\
    (forall f g, resp = JObj f -> f !! "return" = Some (JObj g) ->
       g !! "status" = None -> r = Raised (KeyError "status")).
Proof.
  intros Hq Hresp. exists (paused_of resp). split.
  { unfold isPaused, mbind, M_bind.
    rewrite (run_cmd_eq _ _ _ _ _ Hq). cbv zeta. cbn [wire_request]. rewrite Hresp.
    destruct resp as [| | | | |f]; try reflexivity.
    cbn. destruct (f !! "return") as [ret|]; [|reflexivity].
    cbn. destruct (subscript ret "status"); reflexivity. }
  split; [split|split; [|split]].
  - destruct resp as [| | | | |f]; try discriminate.
    cbn. destruct (f !! "return") as [[| | | | |g]|] eqn:Hf; try discriminate.
    cbn. destruct (g !! "status") as [v|] eqn:Hg; [|discriminate].
    intros [= Hv]. apply eq_str_true in Hv. subst v. eauto.
  - intros (f & g & -> & Hf & Hg). cbn. rewrite Hf. cbn. rewrite Hg. reflexivity.
  - intros ->. reflexivity.
  - intros f -> Hf. cbn. rewrite Hf. reflexivity.
  - intros f g -> Hf Hg. cbn. rewrite Hf. cbn. rewrite Hg. reflexivity.
Qed.

Lemma isPaused_reads_status_witness :
  exists r io',
    isPaused (env_status "paused") (inst started_window, io0) = (r, (inst started_window, io')) /\
    r = Returned true.
Proof.
  destruct (isPaused_reads_status (env_status "paused") (inst started_window) io0
              _ _ eq_refl eq_refl) as (r & Hrun & Htrue & _).
  exists r. eexists. split; [exact Hrun|].
  apply Htrue. eexists _, _. split; [reflexivity|]. split; reflexivity.
Defined.

(** ** The pause and restart buttons when something goes wrong *)

(** X10.  While a process is held, the pause button gives up at the first
    exception and leaves the window as it was: when the status query
    raises, nothing more is sent, and when the [stop] or [cont] that follows
    raises, the caption is not flipped.  The exception leaves the handler. *)
Theorem onPauseButtonClicked_aborts env w io :
  isRunning (inst w) = true ->
  (forall e x io1,
     isPaused env (inst w, io) = (Raised e, (x, io1)) ->
     onPauseButtonClicked env (w, io) = (Raised e, (w, io1))) /\
  (forall b x io1 e x2 io2,
     isPaused env (inst w, io) = (Returned b, (x, io1)) ->
     (if b then cont env else pause env) (x, io1) = (Raised e, (x2, io2)) ->
     onPauseButtonClicked env (w, io) = (Raised e, (w, io2))).
Proof.
  intros R. split.
  - intros e x io1 H. apply isPaused_frame in H as Hf. destruct Hf as [-> _].
    unfold onPauseButtonClicked, mbind, M_bind, get_self, on_inst.
    rewrite R. cbn [negb]. rewrite H. destruct w; reflexivity.
  - intros b x io1 e x2 io2 H H2.
    apply isPaused_frame in H as Hf. destruct Hf as [-> _].
    assert (x2 = inst w) as ->.
    { destruct b; apply run_cmd_frame in H2; apply H2. }
    unfold onPauseButtonClicked, mbind, M_bind, get_self, on_inst.
    rewrite R. cbn [negb]. rewrite H. cbn [inst].
    destruct b; cbv beta iota in H2;
      cbn [inst settings runButton pauseButton]; rewrite H2;
      destruct w; reflexivity.
Qed.

Lemma onPauseButtonClicked_aborts_witness :
  exists io1,
    onPauseButtonClicked env_down (started_window, io0)
      = (Raised (Exception "Disconnected!"), (started_window, io1)) /\
    log io1 = [Command (request "query-status" ∅)].
Proof.
  destruct (onPauseButtonClicked_aborts env_down started_window io0 eq_refl)
    as [Hquery _].
  eexists. split; [eapply Hquery; reflexivity|reflexivity].
Defined.

(** X11.  The restart button does nothing while no process is held.  While
    one is held and a QMP object exists it sends the single request
    [system_reset] with no arguments and changes nothing in the window: the
    same process handle, the same live processes, the same captions. *)
Theorem onRestartButtonClicked_effects env w io :
  (isRunning (inst w) = false ->
   onRestartButtonClicked env (w, io) = (Returned tt, (w, io))) /\
  (forall q,
     isRunning (inst w) = true ->
     _qmp (inst w) = Some q ->
     exists r io',
       onRestartButtonClicked env (w, io) = (r, (w, io')) /\
       log io' = log io ++ [Command (request "system_reset" ∅)] /\
       alive (log io') = alive (log io) /\
       (r = Returned tt <->
        exists resp, qmp_cmd_obj env (commands io) (request "system_reset" ∅) = inr resp /\
                     resp <> JNull)).
Proof.
  split.
  - intros R. unfold onRestartButtonClicked, mbind, M_bind. cbn. rewrite R. reflexivity.
  - intros q R Hq. unfold onRestartButtonClicked, mbind, M_bind, get_self, on_inst, restart.
    rewrite R. cbn [negb]. rewrite (run_cmd_eq _ _ _ _ _ Hq). cbv zeta.
    cbn [wire_request].
    destruct (qmp_cmd_obj env (commands io) (request "system_reset" ∅)) as [e|resp].
    + eexists _, _. split; [destruct w; reflexivity|]. cbn.
      rewrite alive_snoc. repeat split; try discriminate.
      intros (resp & [=] & _).
    + destruct resp; eexists _, _; (split; [destruct w; reflexivity|]); cbn;
        rewrite alive_snoc; repeat split; try discriminate; eauto;
        intros (resp & [= <-] & Hn); congruence.
Qed.

Lemma onRestartButtonClicked_effects_witness :
  onRestartButtonClicked (env_up_at 0) (MainWindow__init__ default_settings, io0)
    = (Returned tt, (MainWindow__init__ default_settings, io0)) /\
  exists r io',
    onRestartButtonClicked (env_up_at 0) (started_window, io0)
      = (r, (started_window, io')) /\
    log io' = [Command (request "system_reset" ∅)].
Proof.
  destruct (onRestartButtonClicked_effects (env_up_at 0)
              (MainWindow__init__ default_settings) io0) as [Hnoop _].
  split; [apply Hnoop; reflexivity|].
  destruct (onRestartButtonClicked_effects (env_up_at 0) started_window io0)
    as [_ Hsend].
  destruct (Hsend _ eq_refl eq_refl) as (r & io' & Hrun & Hlog & _).
  exists r, io'. split; [exact Hrun|exact Hlog].
Defined.

(** ** The printed command line *)

Lemma has_space_app a b : has_space (a +:+ b) = has_space a || has_space b.
Proof.
  induction a as [|c a IH]; [reflexivity|].
  change (String c a +:+ b) with (String c (a +:+ b)). cbn [has_space].
  destruct (Ascii.eqb c " "); [reflexivity|exact IH].
Qed.

Lemma cmd_escaped_plain cmd :
  Forall (fun part => has_space part = false) cmd -> cmd_escaped cmd = cmd.
Proof.
  induction 1 as [|part cmd Hpart _ IH]; [reflexivity|].
  unfold cmd_escaped in *. cbn [map]. rewrite Hpart, IH. reflexivity.
Qed.

Lemma launch_cmd_no_space s :
  Forall (fun path => has_space path = false) (used_paths s) ->
  Forall (fun part => has_space part = false) (launch_cmd s).
Proof.
  unfold used_paths, active_fields. rewrite map_app. cbn [map field_value].
  intros H. apply Forall_app in H as [H4 Hd].
  apply Forall_cons in H4 as [Hx H4]. apply Forall_cons in H4 as [Hm H4].
  apply Forall_cons in H4 as [Hf H4]. apply Forall_cons in H4 as [Hh _].
  assert (Hdvd : has_space (if dvd_present s then ",file=" +:+ dvd_path s else "") = false).
  { destruct (dvd_present s); [|reflexivity].
    cbn [map field_value] in Hd. apply Forall_cons in Hd as [Hd _].
    rewrite has_space_app, Hd. reflexivity. }
  unfold launch_cmd, build_cmd.
  repeat apply Forall_cons_2; try apply Forall_nil_2; try reflexivity; auto;
    rewrite ?has_space_app, ?Hm, ?Hh, ?Hdvd;
    try (destruct (short_anim s); reflexivity);
    try (destruct (hdd_locked s); reflexivity).
Qed.

(** X12.  When none of the paths in use contains a space, nothing is quoted:
    the line [start] prints before spawning is ['Running: '] followed by
    the arguments handed to [Popen], joined by single spaces. *)
Theorem printed_command_plain env s self io :
  Forall (fun path => has_space path = false) (used_paths s) ->
  first_invalid env s = None ->
  cmd_escaped (launch_cmd s) = launch_cmd s /\
  exists r self' io' ev rest,
    start env s (self, io) = (r, (self', io')) /\
    log io' = log io ++ Stdout ("Running: " +:+ join " " (launch_cmd s)) :: ev :: rest /\
    (ev = Spawn (launch_cmd s) (spawned io) \/ ev = SpawnFailed (launch_cmd s)).
Proof.
  intros Hsp V.
  pose proof (cmd_escaped_plain _ (launch_cmd_no_space _ Hsp)) as Hplain.
  split; [exact Hplain|].
  rewrite start_stages, V.
  destruct (spawn_and_connect_log env s self io)
    as (r & self' & io' & ev & rest & Hrun & Hl & Hev).
  exists r, self', io', ev, rest. rewrite Hplain in Hl. auto.
Qed.

Lemma printed_command_plain_witness :
  exists r self' io' rest,
    start (env_up_at 0) default_settings (Xqemu__init__, io0) = (r, (self', io')) /\
    log io' = Stdout ("Running: " +:+ join " " (launch_cmd default_settings)) :: rest.
Proof.
  assert (Hsp : Forall (fun path => has_space path = false) (used_paths default_settings))
    by (repeat constructor).
  destruct (printed_command_plain (env_up_at 0) default_settings Xqemu__init__ io0
              Hsp eq_refl) as (_ & r & self' & io' & ev & rest & Hrun & Hl & _).
  exists r, self', io', (ev :: rest). split; [exact Hrun|exact Hl].
Defined.

(** X13.  [escape_quotes], the replacement applied to a part that is
    printed in quotes: in its result every double quote stands right after
    a backslash, the result is longer than the part by one character for
    each double quote, and a part without double quotes is returned as it
    is. *)
Theorem escape_quotes_spec part :
  quotes_escaped false (escape_quotes part) = true /\
  String.length (escape_quotes part) = String.length part + count_quotes part /\
  (count_quotes part = 0 -> escape_quotes part = part).
Proof.
  split; [|split].
  - generalize false. induction part as [|c part IH]; intros b; [reflexivity|].
    cbn [escape_quotes]. destruct (Ascii.eqb c "034") eqn:E.
    + cbn. apply IH.
    + cbn. rewrite E. apply IH.
  - induction part as [|c part IH]; [reflexivity|].
    cbn [escape_quotes count_quotes]. destruct (Ascii.eqb c "034").
    + change (backslash +:+ dquote +:+ escape_quotes part)
        with (String "092" (String "034" (escape_quotes part))).
      cbn [String.length]. rewrite IH. lia.
    + cbn [String.length]. rewrite IH. lia.
  - induction part as [|c part IH]; [reflexivity|].
    cbn [escape_quotes count_quotes]. destruct (Ascii.eqb c "034"); [discriminate|].
    intros H. rewrite (IH H). reflexivity.
Qed.

(** ** Paths inside the arguments *)

Lemma append_empty_r (a : string) : a +:+ "" = a.
Proof.
  induction a as [|x a IH]; [reflexivity|].
  change (String x (a +:+ "") = String x a). rewrite IH. reflexivity.
Qed.

(** X14.  The argument vector does not tell the short-animation flag from
    the boot ROM path: for settings with the flag set there are other
    settings, with the flag clear and [,short_animation] at the end of
    [mcpx_path], that give the very same vector.  Commas in paths are not
    escaped. *)
Theorem launch_cmd_flag_in_path s :
  short_anim s = true ->
  exists s',
    s' <> s /\
    short_anim s' = false /\
    mcpx_path s' = mcpx_path s +:+ ",short_animation" /\
    launch_cmd s' = launch_cmd s.
Proof.
  intros Hflag.
  exists {| xqemu_path := xqemu_path s;
            mcpx_path := mcpx_path s +:+ ",short_animation";
            flash_path := flash_path s; hdd_path := hdd_path s;
            hdd_locked := hdd_locked s; dvd_present := dvd_present s;
            dvd_path := dvd_path s; short_anim := false |}.
  split; [intros Heq; rewrite <- Heq in Hflag; discriminate|].
  split; [reflexivity|]. split; [reflexivity|].
  unfold launch_cmd. cbn [xqemu_path mcpx_path flash_path hdd_path hdd_locked
                           dvd_present dvd_path short_anim].
  rewrite Hflag. unfold build_cmd. rewrite append_empty_r. reflexivity.
Qed.

Lemma launch_cmd_flag_in_path_witness :
  exists s',
    short_anim s' = false /\
    mcpx_path s' = "/path/to/mcpx.bin,short_animation" /\
    launch_cmd s' =
      launch_cmd {| xqemu_path := "/path/to/xqemu"; mcpx_path := "/path/to/mcpx.bin";
                    flash_path := "/path/to/flash.bin"; hdd_path := "/path/to/hdd.img";
                    hdd_locked := true; dvd_present := true;
                    dvd_path := "/path/to/disc.iso"; short_anim := true |}.
Proof.
  destruct (launch_cmd_flag_in_path
              {| xqemu_path := "/path/to/xqemu"; mcpx_path := "/path/to/mcpx.bin";
                 flash_path := "/path/to/flash.bin"; hdd_path := "/path/to/hdd.img";
                 hdd_locked := true; dvd_present := true;
                 dvd_path := "/path/to/disc.iso"; short_anim := true |} eq_refl)
    as (s' & _ & Hflag & Hpath & Hcmd).
  exists s'. split; [exact Hflag|]. split; [exact Hpath|exact Hcmd].
Defined.

(** X15.  With no disc present [dvd_path] plays no part at all: it is not
    checked and not used, so [start] does the same, effect for effect,
    whatever the setting holds. *)
Theorem start_ignores_absent_disc env s path self io :
  dvd_present s = false ->
  start env (with_dvd_path s path) (self, io) = start env s (self, io).
Proof.
  intros Hd. rewrite !start_stages.
  destruct s as [xq mc fl hd lk dp dv sa]. cbn in Hd. subst dp.
  unfold first_invalid, active_fields, with_dvd_path.
  cbn -[spawn_and_connect invalid_path].
  destruct (invalid_path env xq); [reflexivity|].
  destruct (invalid_path env mc); [reflexivity|].
  destruct (invalid_path env fl); [reflexivity|].
  destruct (invalid_path env hd); reflexivity.
Qed.

Lemma start_ignores_absent_disc_witness :
  dvd_present settings_no_disc = false /\
  os_path_exists env_missing "/missing" = false /\
  start env_missing (with_dvd_path settings_no_disc "/missing") (Xqemu__init__, io0)
    = start env_missing settings_no_disc (Xqemu__init__, io0).
Proof.
  split; [reflexivity|]. split; [reflexivity|].
  apply (start_ignores_absent_disc env_missing settings_no_disc "/missing"
           Xqemu__init__ io0).
  reflexivity.
Defined.

(** ** No protocol traffic while stopped *)



